(** * Telegram-Ethnicity-bot: a shallow embedding of [main.py]

    The bot forwards a name to the nationalize.io service, answers with a
    numbered top-5 list and keeps the ranked result in the process-wide
    dictionary [request_cache] until the chart button is pressed.

    Modelling choices, in the order of the file:
    - a Python [str] is a sequence of Unicode code points ([list N]), so that
      [len], [strip], [split] and slicing count what Python counts; literals
      of the source are written as UTF-8 text and decoded;
    - a Python [float] is an IEEE-754 binary64 value, Stdlib's [spec_float]
      with [prec = 53] and [emax = 1024]; [p * 100] is the correctly rounded
      product and [f'{x:.1f}'] the correctly rounded decimal conversion;
    - [sorted(..., key=..., reverse=True)] follows CPython's [list.sort]:
      reverse, stable ascending sort with [<] on the keys, reverse again;
    - [request_cache] is a [gmap] from keys to lists of guesses;
    - the outer world (pycountry's registry, the HTTP service, matplotlib's
      PNG encoder) is an explicit environment; what the bot sends is a list
      of outbound actions, and the calls that send return normally;
    - handlers run one at a time: a handler is a function from the cache to
      the new cache and the actions it performed. *)

From Stdlib Require Import ZArith NArith List Ascii String Bool Lia.
From Stdlib Require Import Sorted Permutation SpecFloat DecimalString.
From Stdlib Require Import DecimalPos DecimalZ.
From stdpp Require Import base option list sorting gmap.

Local Open Scope N_scope.

(** ** Python strings *)

Module Str.

Abbreviation char := N.
Abbreviation str := (list N).

(** *** Source literals: UTF-8 text decoded to code points *)

Definition cont (b : N) : N := b mod 64.

Fixpoint utf8_decode (bs : list N) : str :=
  match bs with
  | [] => []
  | b0 :: r0 =>
    if b0 <? 128 then b0 :: utf8_decode r0
    else match r0 with
    | [] => []
    | b1 :: r1 =>
      if b0 <? 224 then ((b0 mod 32) * 64 + cont b1) :: utf8_decode r1
      else match r1 with
      | [] => []
      | b2 :: r2 =>
        if b0 <? 240
        then ((b0 mod 16) * 4096 + cont b1 * 64 + cont b2) :: utf8_decode r2
        else match r2 with
        | [] => []
        | b3 :: r3 =>
          ((b0 mod 8) * 262144 + cont b1 * 4096 + cont b2 * 64 + cont b3)
            :: utf8_decode r3
        end
      end
    end
  end.

Definition lit (s : string) : str :=
  utf8_decode (List.map N_of_ascii (list_ascii_of_string s)).

(** *** [str.isspace] for one character, [str.strip()] *)

Definition isspace (c : char) : bool :=
  ((9 <=? c) && (c <=? 13)) || ((28 <=? c) && (c <=? 32))
  || (c =? 133) || (c =? 160) || (c =? 5760)
  || ((8192 <=? c) && (c <=? 8202))
  || (c =? 8232) || (c =? 8233) || (c =? 8239) || (c =? 8287)
  || (c =? 12288).

Fixpoint lstrip (s : str) : str :=
  match s with
  | [] => []
  | c :: s' => if isspace c then lstrip s' else s
  end.

Definition rstrip (s : str) : str := rev (lstrip (rev s)).

Definition strip (s : str) : str := rstrip (lstrip s).

(** [len(s)] *)
Definition len (s : str) : Z := Z.of_nat (List.length s).

(** *** [s.split(sep)] for a one-character separator *)

Fixpoint split (sep : char) (s : str) : list str :=
  match s with
  | [] => [[]]
  | c :: s' =>
    if c =? sep then [] :: split sep s'
    else match split sep s' with
         | [] => [[c]]
         | w :: ws => (c :: w) :: ws
         end
  end.

(** [sep.join(l)] *)
Fixpoint join (sep : str) (l : list str) : str :=
  match l with
  | [] => []
  | [x] => x
  | x :: l' => x ++ sep ++ join sep l'
  end.

(** [s.startswith(p)] *)
Fixpoint startswith (p s : str) : bool :=
  match p, s with
  | [], _ => true
  | _ :: _, [] => false
  | a :: p', b :: s' => (a =? b) && startswith p' s'
  end.

(** *** [str(n)] for an [int] *)

Fixpoint uint_chars (u : Decimal.uint) : str :=
  match u with
  | Decimal.Nil => []
  | Decimal.D0 u => 48 :: uint_chars u
  | Decimal.D1 u => 49 :: uint_chars u
  | Decimal.D2 u => 50 :: uint_chars u
  | Decimal.D3 u => 51 :: uint_chars u
  | Decimal.D4 u => 52 :: uint_chars u
  | Decimal.D5 u => 53 :: uint_chars u
  | Decimal.D6 u => 54 :: uint_chars u
  | Decimal.D7 u => 55 :: uint_chars u
  | Decimal.D8 u => 56 :: uint_chars u
  | Decimal.D9 u => 57 :: uint_chars u
  end.

Definition hyphen : char := 45.

Definition of_int (z : Z) : str :=
  match Z.to_int z with
  | Decimal.Pos u => uint_chars u
  | Decimal.Neg u => hyphen :: uint_chars u
  end.

(** substring test, used to say that a text embeds another *)
Definition contains (s t : str) : Prop := exists pre post, s = pre ++ t ++ post.

End Str.

Import Str.

(** ** Python floats *)

Module Float.

Definition float := spec_float.

Definition prec : Z := 53.
Definition emax : Z := 1024.

(** [float(z)] of an [int], as in the mixed product [p * 100] *)
Definition of_int (z : Z) : float := binary_normalize prec emax z 0 false.

Definition mul (x y : float) : float := SFmul prec emax x y.
Definition ltb (x y : float) : bool := SFltb x y.
Definition leb (x y : float) : bool := SFleb x y.
Definition eqb (x y : float) : bool := SFeqb x y.

Definition is_nan (x : float) : bool :=
  match x with S754_nan => true | _ => false end.

(** the double nearest to the decimal [n / d], as a JSON or Python literal
    denotes it: both integers are exact and the division rounds correctly *)
Definition of_ratio (n d : Z) : float := SFdiv prec emax (of_int n) (of_int d).

(** tenths of [m * 2^e], rounded to nearest, ties to even *)
Definition tenths (m : positive) (e : Z) : Z :=
  (match e with
   | Zneg k =>
     let d := Z.pow 2 (Zpos k) in
     let n := Zpos m * 10 in
     let q := n / d in
     let r := n mod d in
     match 2 * r ?= d with
     | Lt => q
     | Gt => q + 1
     | Eq => if Z.even q then q else q + 1
     end
   | _ => Zpos m * Z.pow 2 e * 10
   end)%Z.

(** the place of a number on the line, for the order facts: a class for
    the sign and the infinities, then exponent and mantissa *)
Definition key (x : float) : Z * Z * Z :=
  (match x with
   | S754_zero _ => (0, 0, 0)
   | S754_infinity s => (if s then -2 else 2, 0, 0)
   | S754_nan => (0, 0, 0)
   | S754_finite s m e => if s then (-1, - e, Zneg m) else (1, e, Zpos m)
   end)%Z.

Definition key_le (x y : Z * Z * Z) : Prop :=
  (fst (fst x) < fst (fst y)
   \/ (fst (fst x) = fst (fst y)
       /\ (snd (fst x) < snd (fst y)
           \/ (snd (fst x) = snd (fst y) /\ snd x <= snd y))))%Z.

Definition sign (s : bool) : str := if s then [hyphen] else [].

(** [f'{x:.1f}'] *)
Definition format_1f (x : float) : str :=
  match x with
  | S754_nan => lit "nan"
  | S754_infinity s => sign s ++ lit "inf"
  | S754_zero s => sign s ++ lit "0.0"
  | S754_finite s m e =>
    let t := tenths m e in
    sign s ++ Str.of_int (t / 10)%Z ++ lit "." ++ Str.of_int (t mod 10)%Z
  end.

End Float.

(** ** [sorted]: CPython's stable sort *)

Section Sorting.

Context {A : Type}.
(** [lt x y] is [key(x) < key(y)] *)
Variable lt : A -> A -> bool.

(** [x] goes behind the elements strictly smaller than it and before the
    first one that is not: equal keys keep the order of arrival *)
Fixpoint insert (x : A) (l : list A) : list A :=
  match l with
  | [] => [x]
  | y :: l' => if lt y x then y :: insert x l' else x :: l
  end.

Fixpoint stable_sort (l : list A) : list A :=
  match l with
  | [] => []
  | x :: l' => insert x (stable_sort l')
  end.

(** [list.sort]: with [reverse=True] the list is reversed before and after
    the ascending sort, which keeps the sort stable. On keys that [<] orders
    (numbers, no NaN) a stable sort has one possible result, so the
    embedding does not depend on how timsort merges its runs. With a NaN
    among the keys CPython's result depends on those details and this
    definition does not follow it: the properties that speak of the order
    are stated for numbers. *)
Definition sorted (reverse : bool) (l : list A) : list A :=
  if reverse then rev (stable_sort (rev l)) else stable_sort l.

(** neighbours in ascending and in descending order of the keys *)
Definition ascending (a b : A) : Prop := lt b a = false.
Definition descending (a b : A) : Prop := lt a b = false.

(** a predicate that picks one class of equal keys: nothing strictly
    smaller than a member is a member *)
Definition key_class (P : A -> bool) : Prop :=
  forall x y, P x = true -> lt y x = true -> P y = false.

End Sorting.

(** ** Data model *)

(** one entry of the service's [country] array:
    [{'country_id': 'RU', 'probability': 0.5}] *)
Record guess := { country_id : str; probability : Float.float }.

(** [telebot] objects, with the fields the handlers read *)
Record message := { chat_id : Z; text : str }.
Record call := { call_id : str; call_chat_id : Z; data : str }.

Record button := { btn_text : str; callback_data : str }.

(** [io.BytesIO]: the bytes written and the read/write cursor *)
Record BytesIO := { getvalue : list Byte.byte; tell : nat }.

Definition write (b : list Byte.byte) (buf : BytesIO) : BytesIO :=
  {| getvalue := getvalue buf ++ b; tell := (tell buf + List.length b)%nat |}.

Definition seek (pos : nat) (buf : BytesIO) : BytesIO :=
  {| getvalue := getvalue buf; tell := pos |}.

(** what [plt.bar], [plt.title], [plt.ylabel], [plt.xticks] and [plt.text]
    leave on the current figure *)
Record bar := { bar_label : str; get_height : Float.float }.

Record annotation :=
  { ann_bar : bar; ann_y : Float.float; ann_text : str; ha : str; va : str }.

Record figure :=
  { figsize : Z * Z;
    bars : list bar;
    color : str;
    title : str;
    ylabel : str;
    xticks_rotation : Z;
    texts : list annotation }.

(** a call either returns or raises; [Raised e] carries [str(e)] *)
Inductive outcome (A : Type) : Type :=
  | Returned (a : A)
  | Raised (e : str).
Arguments Returned {A} a.
Arguments Raised {A} e.

(** [pycountry.countries.get(alpha_2=code)]: a country object (its [name]),
    [None], or a [LookupError] *)
Inductive lookup :=
  | Found (name : str)
  | NotFound
  | LookupFailed.

(** the [try] block of [handle_name] up to [countries = data.get(...)]:
    a [requests.exceptions.RequestException], any other exception, or the
    decoded body's [country] field ([None] when the key is absent) *)
Inductive response :=
  | RequestException (e : str)
  | OtherException (e : str)
  | Body (country : option (list guess)).

(** the world outside the bot *)
Record env :=
  { countries_get : str -> lookup;
    requests_get : str -> response;
    savefig : figure -> outcome (list Byte.byte) }.

(** what the bot sends *)
Inductive action :=
  | reply_to (m : message) (txt : str)
  | http_get (name : str)
  | send_message (chat : Z) (txt : str) (reply_markup : list button)
  | answer_callback_query (id : str) (txt : str) (show_alert : bool)
  | send_photo (chat : Z) (photo : BytesIO) (caption : str).

(** [request_cache = {}] *)
Abbreviation cache := (gmap str (list guess)).

(** ** [get_country_name] *)

Definition unknown_country (country_code : str) : str :=
  lit "Неизвестная страна (" ++ country_code ++ lit ")".

Definition get_country_name (E : env) (country_code : str) : str :=
  match countries_get E country_code with
  | Found name => name
  | NotFound => unknown_country country_code      (* AttributeError *)
  | LookupFailed => unknown_country country_code  (* LookupError *)
  end.

(** ** [create_bar_chart] *)

Definition percent (c : guess) : Float.float :=
  Float.mul (probability c) (Float.of_int 100).

(** [plt.bar(country_names, probabilities, color='skyblue')] *)
Fixpoint plt_bar (x : list str) (height : list Float.float) : list bar :=
  match x, height with
  | n :: x', h :: height' =>
    {| bar_label := n; get_height := h |} :: plt_bar x' height'
  | _, _ => []
  end.

(** the body of [for bar in bars] *)
Definition plt_text (b : bar) : annotation :=
  let height := get_height b in
  {| ann_bar := b; ann_y := height;
     ann_text := Float.format_1f height ++ lit "%";
     ha := lit "center"; va := lit "bottom" |}.

Definition draw (E : env) (countries_data : list guess) : figure :=
  let country_names :=
    List.map (fun c => get_country_name E (country_id c)) countries_data in
  let probabilities := List.map percent countries_data in
  let bars := plt_bar country_names probabilities in
  {| figsize := (10, 5)%Z;
     bars := bars;
     color := lit "skyblue";
     title := lit "Вероятность этничностей/национальностей";
     ylabel := lit "Вероятность (%)";
     xticks_rotation := 45%Z;
     texts := List.map plt_text bars |}.

Definition create_bar_chart (E : env) (countries_data : list guess)
  : outcome BytesIO :=
  let fig := draw E countries_data in
  let buf := {| getvalue := []; tell := 0%nat |} in
  match savefig E fig with
  | Raised e => Raised e
  | Returned png => Returned (seek 0 (write png buf))
  end.

(** ** The result cache: the two places of the source that touch it *)

(** [not v] for a list *)
Definition falsy {A} (v : list A) : bool :=
  match v with [] => true | _ :: _ => false end.

(** [request_cache[cache_key] = top_countries] *)
Definition put (k : str) (v : list guess) (c : cache) : cache := <[k := v]> c.

(** [top_countries = request_cache.get(cache_key)], the test
    [if not top_countries], and [del request_cache[cache_key]] *)
Definition take (k : str) (c : cache) : option (list guess) * cache :=
  match c !! k with
  | None => (None, c)
  | Some v => if falsy v then (None, c) else (Some v, delete k c)
  end.

(** ** [send_welcome] *)

Definition nl : str := [10].

Definition welcome_message : str :=
  lit "👋 Привет! Отправь мне имя/фамилию, и я определю 5 наиболее вероятных этничностей/национальностей."
  ++ nl ++ nl
  ++ lit "Примеры имен для теста:" ++ nl
  ++ lit "• Александр" ++ nl
  ++ lit "• Trump" ++ nl
  ++ lit "• Kim" ++ nl
  ++ lit "• Mohammed".

Definition send_welcome (m : message) (c : cache) : cache * list action :=
  (c, [reply_to m welcome_message]).

(** ** [handle_name] *)

Definition too_short : str :=
  lit "❌ Имя(Фамилия) должно содержать минимум 2 символа".

Definition no_prediction : str :=
  lit "😞 Не удалось определить этничность/национальность. Возможно, имя/фамилия просто очень редкая!".

Definition api_error (e : str) : str :=
  lit "⚠️ El problema - Ошибка при запросе к API: " ++ e.

Definition unexpected_error (e : str) : str :=
  lit "⚠️ El problema - Произошла непредвиденная ошибка: " ++ e.

(** [enumerate(l, start)] *)
Fixpoint enumerate {A} (l : list A) (start : Z) : list (Z * A) :=
  match l with
  | [] => []
  | x :: l' => (start, x) :: enumerate l' (start + 1)%Z
  end.

(** [sorted(countries, key=lambda x: x['probability'], reverse=True)[:5]] *)
Definition by_probability (x y : guess) : bool :=
  Float.ltb (probability x) (probability y).

Definition top5 (countries : list guess) : list guess :=
  firstn 5 (sorted by_probability true countries).

(** one element of [result] *)
Definition result_line (E : env) (ic : Z * guess) : str :=
  let '(i, c) := ic in
  Str.of_int i ++ lit ". " ++ get_country_name E (country_id c)
  ++ lit " - " ++ Float.format_1f (percent c) ++ lit "%".

Definition make_cache_key (chat : Z) (name : str) : str :=
  Str.of_int chat ++ lit "-" ++ name.

Definition summary (name : str) (result : list str) : str :=
  lit "🎯 Топ-5 этничностей/национальностей для " ++ name ++ lit ":" ++ nl
  ++ join nl result.

Definition graph_button (cache_key : str) : button :=
  {| btn_text := lit "📊 Показать диаграммой";
     callback_data := lit "graph_" ++ cache_key |}.

(** The calls to Telegram are taken to return. The path on which
    [bot.reply_to] or [bot.send_message] raises inside the [try], so that
    the [except] clause replies once more, is not part of this definition. *)
Definition handle_name (E : env) (m : message) (request_cache : cache)
  : cache * list action :=
  let name := strip (text m) in
  if (len name <? 2)%Z then (request_cache, [reply_to m too_short])
  else
    match requests_get E name with
    | RequestException e =>
      (request_cache, [http_get name; reply_to m (api_error e)])
    | OtherException e =>
      (request_cache, [http_get name; reply_to m (unexpected_error e)])
    | Body country =>
      let countries := default [] country in
      if falsy countries
      then (request_cache, [http_get name; reply_to m no_prediction])
      else
        let top_countries := top5 countries in
        let result :=
          List.map (result_line E) (enumerate top_countries 1) in
        let cache_key := make_cache_key (chat_id m) name in
        let request_cache := put cache_key top_countries request_cache in
        let markup := [graph_button cache_key] in
        (request_cache,
         [http_get name; send_message (chat_id m) (summary name result) markup])
    end.

(** ** [send_graph] *)

Definition stale : str := lit "Данные устарели или отсутствуют".

Definition chart_error (e : str) : str := lit "Ошибка создания графика: " ++ e.

Definition chart_caption (name : str) : str := lit "📊 Распределение для " ++ name.

(** [str(e)] of the [IndexError] of [l[1]] *)
Definition index_error : str := lit "list index out of range".

(** The calls to Telegram are taken to return. The path on which
    [bot.send_photo] raises inside the [try], so that the [except] clause
    answers the callback as well, is not part of this definition. *)
Definition send_graph (E : env) (cl : call) (request_cache : cache)
  : cache * list action :=
  let cache_key := skipn 6 (data cl) in
  match take cache_key request_cache with
  | (None, request_cache) =>
    (request_cache, [answer_callback_query (call_id cl) stale true])
  | (Some top_countries, request_cache) =>
    match create_bar_chart E top_countries with
    | Raised e =>
      (request_cache,
       [answer_callback_query (call_id cl) (chart_error e) true])
    | Returned chart =>
      match split hyphen cache_key !! 1%nat with
      | None =>
        (request_cache,
         [answer_callback_query (call_id cl) (chart_error index_error) true])
      | Some name =>
        (request_cache,
         [send_photo (call_chat_id cl) chart (chart_caption name)])
      end
    end
  end.

(** ** The dispatcher *)

(** an update as [telebot] classifies it: a [/start] or [/help] command, any
    other text message, a callback query *)
Inductive event :=
  | Command (m : message)
  | Text (m : message)
  | Callback (cl : call).

Definition dispatch (E : env) (ev : event) (c : cache) : cache * list action :=
  match ev with
  | Command m => send_welcome m c
  | Text m => handle_name E m c
  | Callback cl =>
    if startswith (lit "graph_") (data cl) then send_graph E cl c else (c, [])
  end.

(** the service answers with numbers: no guess carries a NaN *)
Definition is_number (g : guess) : bool := negb (Float.is_nan (probability g)).

Definition well_formed (countries : list guess) : bool :=
  forallb is_number countries.

Definition well_formed_env (E : env) : Prop :=
  forall name countries,
    requests_get E name = Body (Some countries) ->
    well_formed countries = true.

(** the caches the process can hold: it starts empty and every update is
    dispatched against some state of the outer world *)
Inductive reachable : cache -> Prop :=
  | reachable_start : reachable ∅
  | reachable_step E ev c :
      reachable c -> well_formed_env E -> reachable (fst (dispatch E ev c)).

(** ** Vocabulary of the properties *)

(** [a] is at least as probable as [b] *)
Definition at_least (a b : guess) : Prop :=
  Float.leb (probability b) (probability a) = true.

(** every guess is at least as probable as every later one *)
Definition non_increasing (l : list guess) : Prop := StronglySorted at_least l.

(** the guesses whose probability compares equal to [p] *)
Definition same_probability (p : Float.float) (g : guess) : bool :=
  Float.eqb (probability g) p.

(** what the text handler stores: one to five guesses, best first *)
Definition ranked_result (v : list guess) : Prop :=
  falsy v = false /\ (List.length v <= 5)%nat /\ non_increasing v.

Definition cache_invariant (c : cache) : Prop :=
  forall k v, c !! k = Some v -> ranked_result v.

(** the probability times 100, as a float product *)
Definition times_100 (g : guess) : Float.float :=
  Float.mul (probability g) (Float.of_int 100).

(** the text of one result line, from its rank and its guess:
    [<rank>. <country display name> - <probability*100 to 1 decimal>%] *)
Definition numbered_line (E : env) (rank : Z) (g : guess) : str :=
  Str.of_int rank ++ lit ". " ++ get_country_name E (country_id g)
  ++ lit " - " ++ Float.format_1f (times_100 g) ++ lit "%".

(** the reply to a successful query: the header line and, below it, the
    result lines, each on a line of its own *)
Definition reply_text (name : str) (lines : list str) : str :=
  lit "🎯 Топ-5 этничностей/национальностей для " ++ name ++ lit ":"
  ++ List.concat (List.map (fun l => 10 :: l) lines).

(** the bar and the label drawn for one guess: the height is the
    probability times 100, the label that height to one decimal and a
    percent sign *)
Definition bar_of (E : env) (g : guess) : bar :=
  {| bar_label := get_country_name E (country_id g);
     get_height := times_100 g |}.

Definition label_of (E : env) (g : guess) : annotation :=
  {| ann_bar := bar_of E g; ann_y := times_100 g;
     ann_text := Float.format_1f (times_100 g) ++ lit "%";
     ha := lit "center"; va := lit "bottom" |}.


(** the consume-once reading of the cache contract, for one key, one value
    and one cache: [take] after [put] hands the value back and leaves the
    key absent *)
Definition consume_once (k : str) (v : list guess) (c : cache) : Prop :=
  fst (take k (put k v c)) = Some v /\ snd (take k (put k v c)) !! k = None.

(** ** Sample worlds *)

Definition mk_guess (id : string) (n d : Z) : guess :=
  {| country_id := lit id; probability := Float.of_ratio n d |}.

(** probabilities 0.2, 0.9, 0.5, 0.9, 0.1 *)
Definition five_guesses : list guess :=
  [mk_guess "AT" 2 10; mk_guess "BE" 9 10; mk_guess "CH" 5 10;
   mk_guess "DE" 9 10; mk_guess "EE" 1 10].

Definition five_ranked : list guess :=
  [mk_guess "BE" 9 10; mk_guess "DE" 9 10; mk_guess "CH" 5 10;
   mk_guess "AT" 2 10; mk_guess "EE" 1 10].

Definition six_guesses : list guess :=
  [mk_guess "US" 352 1000; mk_guess "GB" 91 1000; mk_guess "ZZ" 12 1000;
   mk_guess "CA" 404 1000; mk_guess "AU" 60 1000; mk_guess "NZ" 33 1000].

Definition sample_registry (code : str) : lookup :=
  if decide (code = lit "US") then Found (lit "United States")
  else if decide (code = lit "GB") then Found (lit "United Kingdom")
  else if decide (code = lit "CA") then Found (lit "Canada")
  else if decide (code = lit "AU") then Found (lit "Australia")
  else if decide (code = lit "NZ") then Found (lit "New Zealand")
  else if decide (code = lit "") then LookupFailed
  else NotFound.

Definition sample_png : list Byte.byte :=
  [Byte.x89; Byte.x50; Byte.x4e; Byte.x47].

Definition sample_env (countries : option (list guess)) : env :=
  {| countries_get := sample_registry;
     requests_get := fun _ => Body countries;
     savefig := fun _ => Returned sample_png |}.

Definition broken_backend (countries : option (list guess)) : env :=
  {| countries_get := sample_registry;
     requests_get := fun _ => Body countries;
     savefig := fun _ => Raised (lit "out of memory") |}.

Definition sample_message : message :=
  {| chat_id := 42%Z; text := lit "  Trump " |}.

(** groups and channels have negative chat ids *)
Definition group_message : message :=
  {| chat_id := (-1001234567890)%Z; text := lit "Trump" |}.

Definition press (m : message) : call :=
  {| call_id := lit "7"; call_chat_id := chat_id m;
     data := callback_data (graph_button (make_cache_key (chat_id m) (strip (text m)))) |}.

(** ** Vocabulary of the further properties *)

(** no whitespace at either end *)
Definition trimmed (s : str) : Prop :=
  (forall c r, s = c :: r -> isspace c = false)
  /\ (forall r c, s = r ++ [c] -> isspace c = false).

(** a key as the text handler builds it *)
Definition handler_key (k : str) : Prop :=
  exists chat name,
    k = make_cache_key chat name /\ (2 <= len name)%Z /\ trimmed name.

(** a decimal digit *)
Definition digit (c : char) : Prop := 48 <= c <= 57.

(** the number that a string of decimal digits denotes *)
Definition digits_value (s : str) : Z :=
  fold_left (fun acc c => (10 * acc + (Z.of_N c - 48))%Z) s 0%Z.

(** a world whose service cannot be reached *)
Definition offline (e : str) : env :=
  {| countries_get := sample_registry;
     requests_get := fun _ => RequestException e;
     savefig := fun _ => Returned sample_png |}.

(** zero or a finite non-zero number *)
Definition is_finite (x : Float.float) : bool :=
  match x with
  | S754_zero _ | S754_finite _ _ _ => true
  | S754_infinity _ | S754_nan => false
  end.

(** * Properties *)

(** ** Comparison of floats *)

Module FloatFacts.

Import Float.

Lemma SFcompare_antisym (a b : float) :
  SFcompare b a = option_map CompOpp (SFcompare a b).
Proof.
  destruct a as [sa|sa| |sa ma ea], b as [sb|sb| |sb mb eb]; simpl;
    try reflexivity;
    try (destruct sa; reflexivity); try (destruct sb; reflexivity);
    try (destruct sa, sb; reflexivity).
  destruct sa, sb; simpl; try reflexivity;
    rewrite (Z.compare_antisym ea eb);
    destruct (ea ?= eb)%Z; simpl; try reflexivity;
    rewrite (Pos.compare_cont_antisym ma mb Eq); simpl;
    destruct (Pos.compare_cont Eq ma mb); reflexivity.
Qed.

Lemma ltb_asym (a b : float) : ltb a b = true -> ltb b a = false.
Proof.
  unfold ltb, SFltb. rewrite (SFcompare_antisym a b).
  destruct (SFcompare a b) as [[]|]; simpl; congruence.
Qed.

Lemma compare_defined (a b : float) :
  is_nan a = false -> is_nan b = false -> exists c, SFcompare a b = Some c.
Proof.
  destruct a, b; simpl; intros; try discriminate; eauto.
Qed.

(** on numbers, "not smaller" is "greater or equal" *)
Lemma not_ltb_leb (a b : float) :
  is_nan a = false -> is_nan b = false -> ltb a b = false -> leb b a = true.
Proof.
  intros Ha Hb. unfold ltb, leb, SFltb, SFleb.
  rewrite (SFcompare_antisym a b).
  destruct (compare_defined a b Ha Hb) as [c ->].
  destruct c; simpl; congruence.
Qed.

Lemma compare_Eq_inv (x p : float) :
  SFcompare x p = Some Eq ->
  match x, p with
  | S754_zero _, S754_zero _ => True
  | S754_infinity s1, S754_infinity s2 => s1 = s2
  | S754_finite s1 m1 e1, S754_finite s2 m2 e2 =>
    s1 = s2 /\ m1 = m2 /\ e1 = e2
  | _, _ => False
  end.
Proof.
  destruct x as [s1|s1| |s1 m1 e1], p as [s2|s2| |s2 m2 e2]; simpl;
    try discriminate; try (destruct s1; discriminate);
    try (destruct s2; discriminate); auto.
  - destruct s1, s2; intros; congruence.
  - destruct s1, s2; try discriminate;
      destruct (Z.compare_spec e1 e2) as [->| |]; try discriminate;
      intros H; injection H as H;
      [ apply (f_equal CompOpp) in H; simpl in H;
        rewrite CompOpp_involutive in H | ];
      apply Pos.compare_eq_iff in H; subst; auto.
Qed.

(** keys that compare equal compare alike with every third key *)
Lemma compare_Eq_r (x p y : float) :
  SFcompare x p = Some Eq -> SFcompare y p = SFcompare y x.
Proof.
  intros H. apply compare_Eq_inv in H.
  destruct x as [s1|s1| |s1 m1 e1], p as [s2|s2| |s2 m2 e2];
    try contradiction.
  - destruct y; reflexivity.
  - subst. reflexivity.
  - destruct H as (-> & -> & ->). reflexivity.
Qed.

Lemma eqb_class (p x y : float) :
  eqb x p = true -> ltb y x = true -> eqb y p = false.
Proof.
  unfold eqb, ltb, SFeqb, SFltb. intros Hx Hy.
  destruct (SFcompare x p) as [[]|] eqn:E; try discriminate.
  rewrite (compare_Eq_r x p y E).
  destruct (SFcompare y x) as [[]|]; congruence.
Qed.

(** [<=] on floats is the lexicographic order of the keys, NaN apart *)
Lemma leb_key (a b : float) :
  leb a b = true <->
  is_nan a = false /\ is_nan b = false /\ key_le (key a) (key b).
Proof.
  unfold leb, SFleb, key_le.
  destruct a as [sa|sa| |sa ma ea], b as [sb|sb| |sb mb eb]; simpl;
    try (destruct sa); try (destruct sb); simpl;
    try (split; [intros; try discriminate; repeat split; lia
                | intros (? & ? & ?); try discriminate; try reflexivity; lia]).
  all: destruct (Z.compare_spec ea eb) as [->| |];
    try change (Pos.compare_cont Eq ma mb) with (Pos.compare ma mb);
    try destruct (Pos.compare_spec ma mb) as [->| |]; simpl;
    (split; [intros; try discriminate; repeat split; lia
            | intros (? & ? & ?); try discriminate; try reflexivity; lia]).
Qed.

Lemma leb_trans (a b c : float) :
  leb a b = true -> leb b c = true -> leb a c = true.
Proof.
  rewrite !leb_key. unfold key_le.
  intros (Ha & Hb & Hab) (_ & Hc & Hbc). repeat split; try assumption. lia.
Qed.

End FloatFacts.

(** ** The stable sort *)

Section SortingFacts.

Context {A : Type} (lt : A -> A -> bool).
Hypothesis lt_asym : forall a b, lt a b = true -> lt b a = false.

Lemma insert_perm x l : Permutation (insert lt x l) (x :: l).
Proof.
  induction l as [|y l IH]; simpl; [reflexivity|].
  destruct (lt y x); [|reflexivity].
  rewrite IH. apply perm_swap.
Qed.

Lemma stable_sort_perm l : Permutation (stable_sort lt l) l.
Proof.
  induction l as [|x l IH]; simpl; [reflexivity|].
  rewrite insert_perm. now constructor.
Qed.

Lemma sorted_perm r l : Permutation (sorted lt r l) l.
Proof.
  destruct r; simpl; [|apply stable_sort_perm].
  rewrite <- Permutation_rev, stable_sort_perm, <- Permutation_rev.
  reflexivity.
Qed.

Lemma insert_HdRel a x l :
  ascending lt a x -> HdRel (ascending lt) a l ->
  HdRel (ascending lt) a (insert lt x l).
Proof.
  intros Hax Hl. destruct l as [|y l]; simpl; [now constructor|].
  destruct (lt y x); constructor; [|assumption].
  now inversion Hl.
Qed.

Lemma insert_sorted x l :
  Sorted (ascending lt) l -> Sorted (ascending lt) (insert lt x l).
Proof.
  induction 1 as [|y l Hl IH Hy]; simpl; [repeat constructor|].
  destruct (lt y x) eqn:E.
  - constructor; [exact IH|]. apply insert_HdRel; [|exact Hy].
    unfold ascending. now apply lt_asym.
  - repeat constructor; assumption.
Qed.

Lemma stable_sort_sorted l : Sorted (ascending lt) (stable_sort lt l).
Proof.
  induction l; simpl; [constructor|]. now apply insert_sorted.
Qed.

Lemma sorted_reverse_descending l :
  Sorted (descending lt) (sorted lt true l).
Proof.
  unfold sorted. rewrite (rev_alt (stable_sort lt (rev l))).
  apply (Sorted_reverse (ascending lt)). exact (stable_sort_sorted (rev l)).
Qed.

Lemma insert_filter P x l :
  key_class lt P ->
  List.filter P (insert lt x l) = List.filter P (x :: l).
Proof.
  intros HP. induction l as [|y l IH]; [reflexivity|].
  simpl insert. destruct (lt y x) eqn:E; [|reflexivity].
  simpl in *. rewrite IH.
  destruct (P x) eqn:Px; [|reflexivity].
  now rewrite (HP x y Px E).
Qed.

Lemma stable_sort_filter P l :
  key_class lt P -> List.filter P (stable_sort lt l) = List.filter P l.
Proof.
  intros HP. induction l as [|x l IH]; [reflexivity|].
  simpl stable_sort. rewrite insert_filter by exact HP.
  simpl. now rewrite IH.
Qed.

(** stability, with or without [reverse]: the members of a class of equal
    keys come out in the order they came in *)
Lemma sorted_stable P r l :
  key_class lt P -> List.filter P (sorted lt r l) = List.filter P l.
Proof.
  intros HP. destruct r; simpl; [|now apply stable_sort_filter].
  rewrite List.filter_rev, stable_sort_filter by exact HP.
  rewrite List.filter_rev. apply rev_involutive.
Qed.

Lemma StronglySorted_firstn (R : A -> A -> Prop) n l :
  StronglySorted R l -> StronglySorted R (firstn n l).
Proof.
  intros H. revert n. induction H as [|x l Hl IH Hx]; intros [|n]; simpl;
    try constructor.
  - apply IH.
  - now apply Forall_take.
Qed.

End SortingFacts.

(** ** The handlers, case by case *)

Lemma falsy_nil {A} (v : list A) : falsy v = true <-> v = [].
Proof. destruct v; simpl; split; congruence. Qed.

Lemma handle_name_short E m c :
  (len (strip (text m)) < 2)%Z ->
  handle_name E m c = (c, [reply_to m too_short]).
Proof.
  intros H. unfold handle_name.
  apply Z.ltb_lt in H. now rewrite H.
Qed.

Lemma handle_name_empty E m c country :
  (2 <= len (strip (text m)))%Z ->
  requests_get E (strip (text m)) = Body country ->
  falsy (default [] country) = true ->
  handle_name E m c
  = (c, [http_get (strip (text m)); reply_to m no_prediction]).
Proof.
  intros Hlen Hget Hfalsy. unfold handle_name.
  apply Z.ltb_ge in Hlen. now rewrite Hlen, Hget, Hfalsy.
Qed.

Lemma handle_name_success E m c countries :
  (2 <= len (strip (text m)))%Z ->
  requests_get E (strip (text m)) = Body (Some countries) ->
  falsy countries = false ->
  let name := strip (text m) in
  let key := make_cache_key (chat_id m) name in
  handle_name E m c
  = (put key (top5 countries) c,
     [http_get name;
      send_message (chat_id m)
        (summary name (List.map (result_line E) (enumerate (top5 countries) 1)))
        [graph_button key]]).
Proof.
  intros Hlen Hget Hfalsy. unfold handle_name.
  apply Z.ltb_ge in Hlen. rewrite Hlen, Hget. simpl default.
  now rewrite Hfalsy.
Qed.

Lemma take_absent (k : str) (c : cache) : c !! k = None -> take k c = (None, c).
Proof. intros H. unfold take. now rewrite H. Qed.

Lemma take_present (k : str) (v : list guess) (c : cache) :
  c !! k = Some v -> falsy v = false -> take k c = (Some v, delete k c).
Proof. intros H Hv. unfold take. now rewrite H, Hv. Qed.

Lemma send_graph_absent (E : env) (cl : call) (c : cache) :
  c !! skipn 6 (data cl) = None ->
  send_graph E cl c = (c, [answer_callback_query (call_id cl) stale true]).
Proof. intros H. unfold send_graph. now rewrite (take_absent _ _ H). Qed.

Lemma send_graph_raised (E : env) (cl : call) (c : cache) (v : list guess) (e : str) :
  c !! skipn 6 (data cl) = Some v -> falsy v = false ->
  create_bar_chart E v = Raised e ->
  send_graph E cl c
  = (delete (skipn 6 (data cl)) c,
     [answer_callback_query (call_id cl) (chart_error e) true]).
Proof.
  intros H Hv He. unfold send_graph.
  now rewrite (take_present _ _ _ H Hv), He.
Qed.

(** ** C4: too short a name *)

(** C4. A text whose stripped content is shorter than two characters gets the
    validation message and nothing else: the handler's only action is that
    reply, so no request goes out, and the cache is returned as it was. *)
Theorem C4_short_name_rejected (E : env) (m : message) (c : cache) :
  (len (strip (text m)) < 2)%Z ->
  handle_name E m c = (c, [reply_to m too_short])
  /\ fst (handle_name E m c) = c
  /\ (forall name, ~ In (http_get name) (snd (handle_name E m c))).
Proof.
  intros H. rewrite (handle_name_short E m c H). repeat split.
  intros name [Hin|[]]. discriminate Hin.
Qed.

Lemma C4_short_name_rejected_witness :
  let m := {| chat_id := 42%Z; text := lit "  Я   " |} in
  handle_name (sample_env (Some six_guesses)) m ∅ = (∅, [reply_to m too_short])
  /\ fst (handle_name (sample_env (Some six_guesses)) m ∅) = ∅
  /\ (forall name,
        ~ In (http_get name)
             (snd (handle_name (sample_env (Some six_guesses)) m ∅))).
Proof.
  intros m.
  apply (C4_short_name_rejected (sample_env (Some six_guesses)) m ∅).
  reflexivity.
Defined.

(** ** C6: nothing to predict *)

(** C6. A name that passes validation and a response whose [country] field is
    absent or an empty list: the request goes out, the reply is the fixed
    "no prediction" text sent with [reply_to], which carries no button, and
    the cache is returned as it was. *)
Theorem C6_empty_prediction (E : env) (m : message) (c : cache)
    (country : option (list guess)) :
  (2 <= len (strip (text m)))%Z ->
  requests_get E (strip (text m)) = Body country ->
  country = None \/ country = Some [] ->
  handle_name E m c
  = (c, [http_get (strip (text m)); reply_to m no_prediction]).
Proof.
  intros Hlen Hget Hc. apply (handle_name_empty E m c country Hlen Hget).
  destruct Hc as [-> | ->]; reflexivity.
Qed.

Lemma C6_empty_prediction_witness :
  let m := {| chat_id := 42%Z; text := lit "xx" |} in
  handle_name (sample_env (Some [])) m ∅
  = (∅, [http_get (strip (text m)); reply_to m no_prediction]).
Proof.
  intros m. apply (C6_empty_prediction (sample_env (Some [])) m ∅ (Some [])).
  - vm_compute. discriminate.
  - reflexivity.
  - right. reflexivity.
Defined.

(** ** C5: the country resolver *)

Lemma contains_middle (pre t post : str) : contains (pre ++ t ++ post) t.
Proof. now exists pre, post. Qed.

(** C5. [get_country_name] is a function of the registry and the code, with
    a value for every code. When the registry knows the code, the value is
    the registered name, non-empty as the registry has it; when the registry
    answers [None] or fails with a [LookupError], the value is the fallback
    text, which embeds the code. *)
Theorem C5_resolver_total (E : env) (code : str) :
  (forall name, countries_get E code = Found name -> name <> []) ->
  match countries_get E code with
  | Found name => get_country_name E code = name /\ get_country_name E code <> []
  | NotFound | LookupFailed =>
    get_country_name E code = unknown_country code
    /\ contains (get_country_name E code) code
  end.
Proof.
  intros Hreg. unfold get_country_name.
  destruct (countries_get E code) as [name| |].
  - split; [reflexivity|]. now apply Hreg.
  - split; [reflexivity|]. apply contains_middle.
  - split; [reflexivity|]. apply contains_middle.
Qed.

Lemma C5_resolver_total_witness :
  (get_country_name (sample_env None) (lit "NZ") = lit "New Zealand"
   /\ get_country_name (sample_env None) (lit "NZ") <> [])
  /\ (get_country_name (sample_env None) (lit "XX") = unknown_country (lit "XX")
      /\ contains (get_country_name (sample_env None) (lit "XX")) (lit "XX")).
Proof.
  split.
  - apply (C5_resolver_total (sample_env None) (lit "NZ")).
    intros name H. vm_compute in H. injection H as <-. discriminate.
  - apply (C5_resolver_total (sample_env None) (lit "XX")).
    intros name H. vm_compute in H. discriminate H.
Defined.

(** ** C10: a failed rendering consumes the entry *)

(** C10. When the pressed button's entry is present and drawing raises, the
    entry is gone from the cache that the handler leaves, the press is
    answered with the error notice, and pressing the same button again, in
    whatever state the outer world is then, gets the stale notice: the entry
    was deleted before the drawing and is not put back. *)
Theorem C10_failed_render_consumes (E : env) (cl : call) (c : cache)
    (v : list guess) (e : str) :
  c !! skipn 6 (data cl) = Some v ->
  falsy v = false ->
  create_bar_chart E v = Raised e ->
  let c' := fst (send_graph E cl c) in
  send_graph E cl c
  = (delete (skipn 6 (data cl)) c,
     [answer_callback_query (call_id cl) (chart_error e) true])
  /\ c' !! skipn 6 (data cl) = None
  /\ (forall E', send_graph E' cl c'
                 = (c', [answer_callback_query (call_id cl) stale true])).
Proof.
  intros H Hv He c'. subst c'.
  rewrite (send_graph_raised E cl c v e H Hv He). simpl. repeat split.
  - apply lookup_delete_eq.
  - intros E'. apply send_graph_absent, lookup_delete_eq.
Qed.

Lemma C10_failed_render_consumes_witness :
  let E := broken_backend (Some six_guesses) in
  let cl := press sample_message in
  let c := fst (handle_name E sample_message ∅) in
  let c' := fst (send_graph E cl c) in
  send_graph E cl c
  = (delete (skipn 6 (data cl)) c,
     [answer_callback_query (call_id cl)
        (chart_error (lit "out of memory")) true])
  /\ c' !! skipn 6 (data cl) = None
  /\ (forall E', send_graph E' cl c'
                 = (c', [answer_callback_query (call_id cl) stale true])).
Proof.
  intros E cl c.
  apply (C10_failed_render_consumes E cl c (top5 six_guesses)
           (lit "out of memory")).
  - vm_compute. reflexivity.
  - reflexivity.
  - reflexivity.
Defined.

(** ** C2: the ranking *)

Lemma by_probability_asym (a b : guess) :
  by_probability a b = true -> by_probability b a = false.
Proof. apply FloatFacts.ltb_asym. Qed.

Lemma same_probability_class (p : Float.float) :
  key_class by_probability (same_probability p).
Proof. intros x y. apply FloatFacts.eqb_class. Qed.

Lemma well_formed_Forall (l : list guess) :
  well_formed l = true <-> Forall (fun g => is_number g = true) l.
Proof.
  unfold well_formed. rewrite forallb_forall, List.Forall_forall. reflexivity.
Qed.

Lemma Sorted_weaken {A} (R R' : A -> A -> Prop) (P : A -> Prop) (l : list A) :
  (forall a b, P a -> P b -> R a b -> R' a b) ->
  Forall P l -> Sorted R l -> Sorted R' l.
Proof.
  intros HR HP Hs. induction Hs as [|x l Hl IH Hx]; [constructor|].
  inversion HP as [|? ? Px Pl]; subst. constructor; [now apply IH|].
  destruct Hx as [|y l' Hxy]; constructor.
  inversion Pl; subst. now apply HR.
Qed.

Lemma descending_at_least (a b : guess) :
  is_number a = true -> is_number b = true ->
  descending by_probability a b -> at_least a b.
Proof.
  unfold is_number, descending, by_probability, at_least.
  intros Ha Hb. apply negb_true_iff in Ha, Hb.
  now apply FloatFacts.not_ltb_leb.
Qed.

Lemma ranking_perm (countries : list guess) :
  Permutation (sorted by_probability true countries) countries.
Proof. apply sorted_perm. Qed.

Lemma at_least_trans (a b c : guess) :
  at_least a b -> at_least b c -> at_least a c.
Proof.
  unfold at_least. intros Hab Hbc.
  exact (FloatFacts.leb_trans _ _ _ Hbc Hab).
Qed.

Lemma ranking_non_increasing (countries : list guess) :
  well_formed countries = true ->
  non_increasing (sorted by_probability true countries).
Proof.
  intros Hwf. unfold non_increasing.
  apply Sorted.Sorted_StronglySorted; [exact at_least_trans|].
  apply (Sorted_weaken (descending by_probability) at_least
           (fun g => is_number g = true)).
  - apply descending_at_least.
  - apply well_formed_Forall in Hwf.
    eapply Permutation_Forall; [|exact Hwf].
    symmetry. apply ranking_perm.
  - apply sorted_reverse_descending, by_probability_asym.
Qed.

Lemma ranking_stable (p : Float.float) (countries : list guess) :
  List.filter (same_probability p) (sorted by_probability true countries)
  = List.filter (same_probability p) countries.
Proof. apply sorted_stable, same_probability_class. Qed.

Lemma top5_length (countries : list guess) :
  List.length (top5 countries) = Nat.min 5 (List.length countries).
Proof.
  unfold top5. rewrite length_firstn.
  now rewrite (Permutation_length (ranking_perm countries)).
Qed.

Lemma top5_nonempty (countries : list guess) :
  falsy countries = false -> falsy (top5 countries) = false.
Proof.
  intros Hne. destruct (top5 countries) eqn:E; [|reflexivity].
  apply (f_equal (@List.length guess)) in E. rewrite top5_length in E.
  destruct countries; [discriminate Hne|discriminate E].
Qed.

Lemma top5_ranked (countries : list guess) :
  falsy countries = false -> well_formed countries = true ->
  ranked_result (top5 countries).
Proof.
  intros Hne Hwf. split_and!.
  - now apply top5_nonempty.
  - rewrite top5_length. apply Nat.le_min_l.
  - apply StronglySorted_firstn. now apply ranking_non_increasing.
Qed.

(** C2. A valid name and a non-empty list of guesses from the service: the
    handler stores and reports the first five of a ranking that is a
    rearrangement of the guesses, non-increasing in probability, and stable
    (for every probability, the guesses carrying it stand in their original
    order). For probabilities 0.2, 0.9, 0.5, 0.9, 0.1 the two 0.9 guesses
    come first, in their original order, then 0.5, 0.2 and 0.1. *)
Theorem C2_ranking_stable_top5 (E : env) (m : message) (c : cache)
    (countries : list guess) :
  (2 <= len (strip (text m)))%Z ->
  requests_get E (strip (text m)) = Body (Some countries) ->
  falsy countries = false ->
  well_formed countries = true ->
  exists ranked,
    Permutation ranked countries
    /\ non_increasing ranked
    /\ (forall p, List.filter (same_probability p) ranked
                  = List.filter (same_probability p) countries)
    /\ (List.length (firstn 5 ranked) <= 5)%nat
    /\ handle_name E m c
       = (put (make_cache_key (chat_id m) (strip (text m))) (firstn 5 ranked) c,
          [http_get (strip (text m));
           send_message (chat_id m)
             (summary (strip (text m))
                (List.map (result_line E) (enumerate (firstn 5 ranked) 1)))
             [graph_button (make_cache_key (chat_id m) (strip (text m)))]])
    /\ top5 five_guesses = five_ranked.
Proof.
  intros Hlen Hget Hne Hwf.
  exists (sorted by_probability true countries). split_and!.
  - apply ranking_perm.
  - now apply ranking_non_increasing.
  - intros p. apply ranking_stable.
  - rewrite length_firstn. apply Nat.le_min_l.
  - apply (handle_name_success E m c countries Hlen Hget Hne).
  - vm_compute. reflexivity.
Qed.

Lemma C2_ranking_stable_top5_witness :
  let E := sample_env (Some five_guesses) in
  let m := sample_message in
  exists ranked,
    Permutation ranked five_guesses
    /\ non_increasing ranked
    /\ (forall p, List.filter (same_probability p) ranked
                  = List.filter (same_probability p) five_guesses)
    /\ (List.length (firstn 5 ranked) <= 5)%nat
    /\ handle_name E m ∅
       = (put (make_cache_key (chat_id m) (strip (text m))) (firstn 5 ranked) ∅,
          [http_get (strip (text m));
           send_message (chat_id m)
             (summary (strip (text m))
                (List.map (result_line E) (enumerate (firstn 5 ranked) 1)))
             [graph_button (make_cache_key (chat_id m) (strip (text m)))]])
    /\ top5 five_guesses = five_ranked.
Proof.
  intros E m.
  apply (C2_ranking_stable_top5 E m ∅ five_guesses).
  - vm_compute. discriminate.
  - reflexivity.
  - reflexivity.
  - vm_compute. reflexivity.
Defined.

(** ** C1: the cache hands a result over once *)

(** the only write of the text handler is a [put] of a non-empty result:
    the handler has returned before it when the service sent no guess *)
Lemma handle_name_puts_nonempty (E : env) (m : message) (c : cache) :
  fst (handle_name E m c) = c
  \/ exists v,
       falsy v = false
       /\ fst (handle_name E m c)
          = put (make_cache_key (chat_id m) (strip (text m))) v c.
Proof.
  unfold handle_name.
  destruct (len (strip (text m)) <? 2)%Z; [now left|].
  destruct (requests_get E (strip (text m))) as [e|e|[countries|]];
    try (now left).
  simpl default. destruct (falsy countries) eqn:Hf; [now left|].
  right. exists (top5 countries). split; [|reflexivity].
  now apply top5_nonempty.
Qed.

(** C1. A ranked result in the cache is non-empty: every write of the text
    handler is a [put] of a non-empty list. For every key and every such
    result, [take] after [put] returns the result and removes the entry, and
    a second [take] reports the key absent; a button press whose key is
    absent is answered with the stale notice alone, the cache untouched. *)
Theorem C1_consume_once (k : str) (v : list guess) (c : cache) :
  falsy v = false ->
  consume_once k v c
  /\ take k (put k v c) = (Some v, delete k c)
  /\ take k (snd (take k (put k v c))) = (None, delete k c)
  /\ (forall (E : env) (m : message) (c' : cache),
        fst (handle_name E m c') = c'
        \/ exists v',
             falsy v' = false
             /\ fst (handle_name E m c')
                = put (make_cache_key (chat_id m) (strip (text m))) v' c')
  /\ (forall (E : env) (cl : call) (c' : cache),
        c' !! skipn 6 (data cl) = None ->
        send_graph E cl c'
        = (c', [answer_callback_query (call_id cl) stale true])).
Proof.
  intros Hv.
  assert (Htake : take k (put k v c) = (Some v, delete k c)).
  { unfold put. rewrite (take_present k v (<[k:=v]> c)).
    - now rewrite delete_insert_eq.
    - apply lookup_insert_eq.
    - exact Hv. }
  unfold consume_once. rewrite Htake. simpl. split_and!.
  - reflexivity.
  - apply lookup_delete_eq.
  - reflexivity.
  - apply take_absent, lookup_delete_eq.
  - intros E m c'. apply handle_name_puts_nonempty.
  - intros E cl c'. apply send_graph_absent.
Qed.

Lemma C1_consume_once_witness :
  let k := lit "42-Trump" in
  let v := top5 six_guesses in
  consume_once k v ∅
  /\ take k (put k v ∅) = (Some v, delete k ∅)
  /\ take k (snd (take k (put k v ∅))) = (None, delete k ∅)
  /\ (forall (E : env) (m : message) (c' : cache),
        fst (handle_name E m c') = c'
        \/ exists v',
             falsy v' = false
             /\ fst (handle_name E m c')
                = put (make_cache_key (chat_id m) (strip (text m))) v' c')
  /\ (forall (E : env) (cl : call) (c' : cache),
        c' !! skipn 6 (data cl) = None ->
        send_graph E cl c'
        = (c', [answer_callback_query (call_id cl) stale true])).
Proof.
  intros k v. apply (C1_consume_once k v ∅). reflexivity.
Defined.

(** ** C3: the numbered lines *)

Lemma result_lines_lookup (E : env) (l : list guess) (start : Z) (i : nat)
    (g : guess) :
  l !! i = Some g ->
  List.map (result_line E) (enumerate l start) !! i
  = Some (numbered_line E (start + Z.of_nat i) g).
Proof.
  revert start i. induction l as [|x l IH]; intros start [|i] H;
    try discriminate H.
  - injection H as ->. simpl. now rewrite Z.add_0_r.
  - simpl. rewrite (IH (start + 1)%Z i H).
    do 2 f_equal. lia.
Qed.

Lemma enumerate_length {A} (l : list A) (start : Z) :
  List.length (enumerate l start) = List.length l.
Proof.
  revert start. induction l as [|x l IH]; intros start; simpl;
    [reflexivity|]. now rewrite IH.
Qed.

Lemma join_lines (l : list str) :
  l <> [] -> nl ++ join nl l = List.concat (List.map (fun x => 10 :: x) l).
Proof.
  induction l as [|x l IH]; [congruence|]. intros _.
  destruct l as [|y l].
  - simpl. now rewrite app_nil_r.
  - change (join nl (x :: y :: l)) with (x ++ nl ++ join nl (y :: l)).
    rewrite IH by discriminate. reflexivity.
Qed.

Lemma summary_reply_text (name : str) (lines : list str) :
  lines <> [] -> summary name lines = reply_text name lines.
Proof.
  intros Hl. unfold summary, reply_text.
  now rewrite <- (join_lines lines Hl).
Qed.

(** C3. A valid name and a response with [n >= 1] guesses: the reply text is
    the header line followed by the result lines, each on a line of its own;
    there are [min n 5] of them, one per ranked guess, and the line at
    position [i] (from 0) reads
    [<i+1>. <resolved country name> - <probability*100 to one decimal>%].
    For the six-country response to Trump the reply is the header and the
    five lines numbered 1 to 5. *)
Theorem C3_numbered_lines (E : env) (m : message) (c : cache)
    (countries : list guess) :
  (2 <= len (strip (text m)))%Z ->
  requests_get E (strip (text m)) = Body (Some countries) ->
  falsy countries = false ->
  (exists lines,
     snd (handle_name E m c)
     = [http_get (strip (text m));
        send_message (chat_id m) (reply_text (strip (text m)) lines)
          [graph_button (make_cache_key (chat_id m) (strip (text m)))]]
     /\ List.length lines = Nat.min (List.length countries) 5
     /\ List.length lines = List.length (top5 countries)
     /\ (forall i g,
           top5 countries !! i = Some g ->
           lines !! i = Some (numbered_line E (Z.of_nat i + 1) g)))
  /\ snd (handle_name (sample_env (Some six_guesses)) sample_message ∅)
     = [http_get (lit "Trump");
        send_message 42
          (lit "🎯 Топ-5 этничностей/национальностей для Trump:" ++ [10]
           ++ lit "1. Canada - 40.4%" ++ [10]
           ++ lit "2. United States - 35.2%" ++ [10]
           ++ lit "3. United Kingdom - 9.1%" ++ [10]
           ++ lit "4. Australia - 6.0%" ++ [10]
           ++ lit "5. New Zealand - 3.3%")
          [{| btn_text := lit "📊 Показать диаграммой";
              callback_data := lit "graph_42-Trump" |}]].
Proof.
  intros Hlen Hget Hne. split; [|vm_compute; reflexivity].
  exists (List.map (result_line E) (enumerate (top5 countries) 1)).
  rewrite (handle_name_success E m c countries Hlen Hget Hne).
  assert (Hn : List.length
                 (List.map (result_line E) (enumerate (top5 countries) 1))
               = List.length (top5 countries))
    by now rewrite length_map, enumerate_length.
  split_and!.
  - cbn [snd]. rewrite summary_reply_text; [reflexivity|].
    intros H. rewrite H in Hn. symmetry in Hn.
    apply length_zero_iff_nil in Hn.
    pose proof (top5_nonempty countries Hne) as Hf.
    rewrite Hn in Hf. discriminate Hf.
  - rewrite Hn, top5_length. apply Nat.min_comm.
  - exact Hn.
  - intros i g H. rewrite (result_lines_lookup E _ 1 i g H).
    do 2 f_equal. lia.
Qed.

Lemma C3_numbered_lines_witness :
  let E := sample_env (Some six_guesses) in
  let m := sample_message in
  (exists lines,
     snd (handle_name E m ∅)
     = [http_get (strip (text m));
        send_message (chat_id m) (reply_text (strip (text m)) lines)
          [graph_button (make_cache_key (chat_id m) (strip (text m)))]]
     /\ List.length lines = Nat.min (List.length six_guesses) 5
     /\ List.length lines = List.length (top5 six_guesses)
     /\ (forall i g,
           top5 six_guesses !! i = Some g ->
           lines !! i = Some (numbered_line E (Z.of_nat i + 1) g)))
  /\ snd (handle_name (sample_env (Some six_guesses)) sample_message ∅)
     = [http_get (lit "Trump");
        send_message 42
          (lit "🎯 Топ-5 этничностей/национальностей для Trump:" ++ [10]
           ++ lit "1. Canada - 40.4%" ++ [10]
           ++ lit "2. United States - 35.2%" ++ [10]
           ++ lit "3. United Kingdom - 9.1%" ++ [10]
           ++ lit "4. Australia - 6.0%" ++ [10]
           ++ lit "5. New Zealand - 3.3%")
          [{| btn_text := lit "📊 Показать диаграммой";
              callback_data := lit "graph_42-Trump" |}]].
Proof.
  intros E m.
  apply (C3_numbered_lines E m ∅ six_guesses).
  - vm_compute. discriminate.
  - reflexivity.
  - reflexivity.
Defined.

(** ** C8: the chart *)

Lemma plt_bar_zip (E : env) (data : list guess) :
  plt_bar (List.map (fun c => get_country_name E (country_id c)) data)
          (List.map percent data)
  = List.map (bar_of E) data.
Proof.
  induction data as [|g data IH]; simpl; [reflexivity|]. now rewrite IH.
Qed.

Lemma draw_bars (E : env) (data : list guess) :
  bars (draw E data) = List.map (bar_of E) data.
Proof. apply plt_bar_zip. Qed.

Lemma draw_texts (E : env) (data : list guess) :
  texts (draw E data) = List.map (label_of E) data.
Proof.
  unfold draw. simpl. rewrite plt_bar_zip, List.map_map. reflexivity.
Qed.



(** ** C9: what the cache holds *)

Lemma cache_invariant_put (k : str) (v : list guess) (c : cache) :
  ranked_result v -> cache_invariant c -> cache_invariant (put k v c).
Proof.
  intros Hv Hc k' v'. unfold put. rewrite lookup_insert.
  case_decide; [|apply Hc]. intros [= <-]. exact Hv.
Qed.

Lemma cache_invariant_delete (k : str) (c : cache) :
  cache_invariant c -> cache_invariant (delete k c).
Proof.
  intros Hc k' v'. rewrite lookup_delete_Some. intros [_ H]. exact (Hc _ _ H).
Qed.

Lemma handle_name_cache (E : env) (m : message) (c : cache) :
  fst (handle_name E m c) = c
  \/ exists countries,
       requests_get E (strip (text m)) = Body (Some countries)
       /\ falsy countries = false
       /\ fst (handle_name E m c)
          = put (make_cache_key (chat_id m) (strip (text m)))
                (top5 countries) c.
Proof.
  unfold handle_name.
  destruct (len (strip (text m)) <? 2)%Z; [now left|].
  destruct (requests_get E (strip (text m))) as [e|e|[countries|]];
    try (now left).
  simpl default. destruct (falsy countries) eqn:Hf; [now left|].
  right. exists countries. auto.
Qed.

Lemma send_graph_cache (E : env) (cl : call) (c : cache) :
  fst (send_graph E cl c) = c
  \/ fst (send_graph E cl c) = delete (skipn 6 (data cl)) c.
Proof.
  unfold send_graph, take.
  destruct (c !! skipn 6 (data cl)) as [v|]; [|now left].
  destruct (falsy v); [now left|].
  destruct (create_bar_chart E v); [|now right].
  destruct (split hyphen (skipn 6 (data cl)) !! 1%nat); now right.
Qed.

Lemma dispatch_invariant (E : env) (ev : event) (c : cache) :
  well_formed_env E -> cache_invariant c ->
  cache_invariant (fst (dispatch E ev c)).
Proof.
  intros HE Hc. destruct ev as [m|m|cl]; unfold dispatch.
  - exact Hc.
  - destruct (handle_name_cache E m c) as [-> | (l & Hget & Hne & ->)];
      [exact Hc|].
    apply cache_invariant_put; [|exact Hc].
    apply top5_ranked; [exact Hne|]. exact (HE _ _ Hget).
  - destruct (startswith (lit "graph_") (data cl)); [|exact Hc].
    destruct (send_graph_cache E cl c) as [-> | ->]; [exact Hc|].
    now apply cache_invariant_delete.
Qed.

Lemma reachable_invariant (c : cache) : reachable c -> cache_invariant c.
Proof.
  induction 1 as [|E ev c Hc IH HE].
  - intros k v H. rewrite lookup_empty in H. discriminate H.
  - now apply dispatch_invariant.
Qed.

Lemma stale_not_chart_error (e : str) : stale <> chart_error e.
Proof. intros H. vm_compute in H. discriminate H. Qed.

Lemma send_graph_present (E : env) (cl : call) (c : cache) (v : list guess) :
  c !! skipn 6 (data cl) = Some v -> falsy v = false ->
  snd (send_graph E cl c) <> [answer_callback_query (call_id cl) stale true].
Proof.
  intros H Hv. unfold send_graph. rewrite (take_present _ _ _ H Hv).
  destruct (create_bar_chart E v) as [chart|e].
  - destruct (split hyphen (skipn 6 (data cl)) !! 1%nat); cbn [snd].
    + discriminate.
    + generalize (stale_not_chart_error index_error).
      generalize stale, (chart_error index_error). congruence.
  - cbn [snd]. generalize (stale_not_chart_error e).
    generalize stale, (chart_error e). congruence.
Qed.

(** C9. In every cache the process can hold, each stored value is a non-empty
    list of at most five guesses, non-increasing in probability. So the
    handler's test on the value it looked up reports "missing" exactly for
    the keys that are absent, and the stale notice is what a press gets
    exactly when its key is absent. *)
Theorem C9_stored_results_ranked (c : cache) :
  reachable c ->
  cache_invariant c
  /\ (forall k, fst (take k c) = None <-> c !! k = None)
  /\ (forall E cl,
        snd (send_graph E cl c)
        = [answer_callback_query (call_id cl) stale true]
        <-> c !! skipn 6 (data cl) = None).
Proof.
  intros Hr. pose proof (reachable_invariant c Hr) as Hinv. split_and!.
  - exact Hinv.
  - intros k. split.
    + destruct (c !! k) as [v|] eqn:Hk; [|reflexivity].
      destruct (Hinv k v Hk) as (Hv & _).
      rewrite (take_present k v c Hk Hv). discriminate.
    + intros Hk. now rewrite (take_absent k c Hk).
  - intros E cl. split.
    + destruct (c !! skipn 6 (data cl)) as [v|] eqn:Hk; [|reflexivity].
      destruct (Hinv _ v Hk) as (Hv & _).
      intros H. now apply (send_graph_present E cl c v Hk Hv) in H.
    + intros Hk. now rewrite (send_graph_absent E cl c Hk).
Qed.

Lemma sample_env_well_formed : well_formed_env (sample_env (Some six_guesses)).
Proof. intros name l [= <-]. reflexivity. Qed.

Lemma C9_stored_results_ranked_witness :
  let c := fst (dispatch (sample_env (Some six_guesses)) (Text sample_message) ∅) in
  cache_invariant c
  /\ (forall k, fst (take k c) = None <-> c !! k = None)
  /\ (forall E cl,
        snd (send_graph E cl c)
        = [answer_callback_query (call_id cl) stale true]
        <-> c !! skipn 6 (data cl) = None).
Proof.
  intros c. apply (C9_stored_results_ranked c).
  apply reachable_step; [apply reachable_start|].
  intros name l H. injection H as <-. reflexivity.
Defined.

(** ** C7: the caption *)

Lemma uint_chars_no_hyphen (u : Decimal.uint) : ~ In hyphen (uint_chars u).
Proof.
  induction u; simpl; intros H; try (destruct H as [H|H]; [discriminate H|]);
    auto.
Qed.

Lemma of_int_no_hyphen (z : Z) : (0 <= z)%Z -> ~ In hyphen (Str.of_int z).
Proof.
  intros Hz. unfold Str.of_int.
  destruct z as [|p|p]; [| |lia]; apply uint_chars_no_hyphen.
Qed.

Lemma split_no_sep (sep : char) (s : str) : ~ In sep s -> split sep s = [s].
Proof.
  induction s as [|c s IH]; simpl; [reflexivity|]. intros H.
  destruct (N.eqb_spec c sep) as [->|Hc]; [tauto|].
  rewrite IH by tauto. reflexivity.
Qed.

Lemma split_app (sep : char) (a b : str) :
  ~ In sep a -> split sep (a ++ sep :: b) = a :: split sep b.
Proof.
  induction a as [|c a IH]; simpl; intros H.
  - now rewrite N.eqb_refl.
  - destruct (N.eqb_spec c sep) as [->|Hc]; [tauto|].
    rewrite IH by tauto. reflexivity.
Qed.

(** in a private chat (the id is not negative) and for a name without a
    hyphen, the second piece of the key is the name *)
Lemma cache_key_names_subject (chat : Z) (name : str) :
  (0 <= chat)%Z -> ~ In hyphen name ->
  split hyphen (make_cache_key chat name) !! 1%nat = Some name.
Proof.
  intros Hc Hn. unfold make_cache_key.
  change (lit "-" ++ name) with (hyphen :: name).
  rewrite split_app by now apply of_int_no_hyphen.
  now rewrite split_no_sep.
Qed.

(** the whole hand-off in a private chat: the photo's caption names the
    stripped name that was submitted *)
Lemma private_chat_caption (E E' : env) (m : message) (c : cache)
    (countries : list guess) (png : list Byte.byte) :
  (0 <= chat_id m)%Z ->
  ~ In hyphen (strip (text m)) ->
  (2 <= len (strip (text m)))%Z ->
  requests_get E (strip (text m)) = Body (Some countries) ->
  falsy countries = false ->
  savefig E' (draw E' (top5 countries)) = Returned png ->
  snd (send_graph E' (press m) (fst (handle_name E m c)))
  = [send_photo (chat_id m) {| getvalue := png; tell := 0 |}
       (chart_caption (strip (text m)))].
Proof.
  intros Hchat Hname Hlen Hget Hne Hpng.
  rewrite (handle_name_success E m c countries Hlen Hget Hne).
  unfold send_graph, press. cbn [fst data call_id call_chat_id].
  change (skipn 6 (callback_data (graph_button ?k))) with k.
  rewrite (take_present _ (top5 countries)).
  - unfold create_bar_chart. rewrite Hpng.
    now rewrite (cache_key_names_subject _ _ Hchat Hname).
  - apply lookup_insert_eq.
  - now apply top5_nonempty.
Qed.

(** C7, at a group chat. Telegram gives groups negative ids: for the chat
    -1001234567890 and the name Trump the key is [-1001234567890-Trump], its
    pieces are the empty string, [1001234567890] and [Trump], and the photo
    goes out with a caption that names [1001234567890], not the submitted
    name. *)
Theorem C7_group_chat_caption :
  let E := sample_env (Some six_guesses) in
  let c := fst (handle_name E group_message ∅) in
  data (press group_message) = lit "graph_-1001234567890-Trump"
  /\ split hyphen (skipn 6 (data (press group_message)))
     = [[]; lit "1001234567890"; lit "Trump"]
  /\ snd (send_graph E (press group_message) c)
     = [send_photo (-1001234567890) {| getvalue := sample_png; tell := 0 |}
          (chart_caption (lit "1001234567890"))]
  /\ chart_caption (lit "1001234567890")
     <> chart_caption (strip (text group_message)).
Proof.
  split_and!.
  - vm_compute. reflexivity.
  - vm_compute. reflexivity.
  - vm_compute. reflexivity.
  - vm_compute. discriminate.
Qed.

(** * Further properties *)

(** ** Decimal numerals and cache keys *)

Lemma uint_chars_inj (u v : Decimal.uint) :
  uint_chars u = uint_chars v -> u = v.
Proof.
  revert v. induction u; destruct v; simpl; intros H;
    try discriminate H; try reflexivity;
    injection H as H; f_equal; auto.
Qed.

Lemma uint_chars_nonempty (p : positive) : uint_chars (Pos.to_uint p) <> [].
Proof.
  intros H. apply (DecimalPos.Unsigned.to_uint_nonnil p).
  apply uint_chars_inj. exact H.
Qed.

(** the numeral of an [int]: an optional minus sign, then digits *)
Lemma of_int_shape (z : Z) :
  exists d ds,
    ~ In hyphen (d :: ds)
    /\ Str.of_int z = (if (z <? 0)%Z then [hyphen] else []) ++ d :: ds.
Proof.
  destruct z as [|p|p].
  - exists 48, []. split; [|reflexivity]. intros [H|[]]. discriminate H.
  - pose proof (uint_chars_nonempty p) as Hne.
    pose proof (uint_chars_no_hyphen (Pos.to_uint p)) as Hno.
    change (Str.of_int (Z.pos p)) with (uint_chars (Pos.to_uint p)).
    destruct (uint_chars (Pos.to_uint p)) as [|d ds]; [congruence|].
    now exists d, ds.
  - pose proof (uint_chars_nonempty p) as Hne.
    pose proof (uint_chars_no_hyphen (Pos.to_uint p)) as Hno.
    change (Str.of_int (Z.neg p)) with (hyphen :: uint_chars (Pos.to_uint p)).
    destruct (uint_chars (Pos.to_uint p)) as [|d ds]; [congruence|].
    now exists d, ds.
Qed.

Lemma of_int_inj (a b : Z) : Str.of_int a = Str.of_int b -> a = b.
Proof.
  unfold Str.of_int. intros H. apply DecimalZ.to_int_inj.
  destruct (Z.to_int a) as [u|u], (Z.to_int b) as [v|v].
  - f_equal. now apply uint_chars_inj.
  - exfalso. apply (uint_chars_no_hyphen u). rewrite H. now left.
  - exfalso. apply (uint_chars_no_hyphen v). rewrite <- H. now left.
  - f_equal. injection H as H. now apply uint_chars_inj.
Qed.

Lemma hyphen_free_prefix (a b x y : str) :
  ~ In hyphen a -> ~ In hyphen b ->
  a ++ hyphen :: x = b ++ hyphen :: y -> a = b /\ x = y.
Proof.
  revert b. induction a as [|c a IH]; intros [|d b] Ha Hb H; simpl in *.
  - injection H as ->. auto.
  - injection H as <- _. tauto.
  - injection H as -> _. tauto.
  - injection H as -> H. destruct (IH b) as [-> ->]; tauto.
Qed.

Lemma make_cache_key_inj (chat chat' : Z) (name name' : str) :
  make_cache_key chat name = make_cache_key chat' name' ->
  chat = chat' /\ name = name'.
Proof.
  unfold make_cache_key. change (lit "-") with [hyphen]. simpl app.
  intros H.
  destruct (of_int_shape chat) as (d & ds & Hd & E).
  destruct (of_int_shape chat') as (d' & ds' & Hd' & E').
  rewrite E, E' in H.
  destruct (chat <? 0)%Z eqn:S, (chat' <? 0)%Z eqn:S'; simpl in H.
  - apply (f_equal (skipn 1)) in H. simpl in H.
    apply (hyphen_free_prefix (d :: ds) (d' :: ds')) in H;
      [|assumption|assumption].
    destruct H as [H ->]. split; [|reflexivity].
    apply of_int_inj. rewrite E, E', H. reflexivity.
  - injection H as <- _. exfalso. apply Hd'. now left.
  - injection H as -> _. exfalso. apply Hd. now left.
  - apply (hyphen_free_prefix (d :: ds) (d' :: ds')) in H;
      [|assumption|assumption].
    destruct H as [H ->]. split; [|reflexivity].
    apply of_int_inj. rewrite E, E', H. reflexivity.
Qed.

(** ** Stripping and splitting *)

Lemma lstrip_cons (c : char) (s : str) :
  lstrip (c :: s) = if isspace c then lstrip s else c :: s.
Proof. reflexivity. Qed.

Lemma lstrip_head (s : str) (c : char) (r : str) :
  lstrip s = c :: r -> isspace c = false.
Proof.
  induction s as [|a s IH]; [discriminate|].
  rewrite lstrip_cons. destruct (isspace a) eqn:E; [exact IH|].
  intros [= <- _]. exact E.
Qed.

Lemma lstrip_snoc (a : str) (c : char) :
  isspace c = false -> exists a', lstrip (a ++ [c]) = a' ++ [c].
Proof.
  intros Hc. induction a as [|x a IH].
  - exists []. simpl app. rewrite lstrip_cons, Hc. reflexivity.
  - simpl app. rewrite lstrip_cons. destruct (isspace x); [exact IH|].
    now exists (x :: a).
Qed.

Lemma rstrip_last (s r : str) (c : char) :
  rstrip s = r ++ [c] -> isspace c = false.
Proof.
  unfold rstrip. intros H. apply (f_equal (@rev N)) in H.
  rewrite rev_involutive, rev_app_distr in H. exact (lstrip_head _ _ _ H).
Qed.

Lemma strip_trimmed (s : str) : trimmed (strip s).
Proof.
  split.
  - intros c r H. unfold strip, rstrip in H.
    destruct (lstrip s) as [|c0 t] eqn:E; [discriminate H|].
    pose proof (lstrip_head _ _ _ E) as Hc0.
    simpl rev in H. destruct (lstrip_snoc (rev t) c0 Hc0) as [a' Ha].
    rewrite Ha, rev_app_distr in H. injection H as <- _. exact Hc0.
  - intros r c H. exact (rstrip_last _ _ _ H).
Qed.

Lemma split_cons (sep c : char) (s : str) :
  split sep (c :: s)
  = if c =? sep then [] :: split sep s
    else match split sep s with
         | [] => [[c]]
         | w :: ws => (c :: w) :: ws
         end.
Proof. reflexivity. Qed.

Lemma split_nonempty (sep : char) (s : str) : split sep s <> [].
Proof.
  destruct s as [|c s]; [discriminate|]. rewrite split_cons.
  destruct (c =? sep); [discriminate|].
  destruct (split sep s); discriminate.
Qed.

(** the first piece is the text up to the first separator *)
Lemma split_first_piece (sep : char) (s : str) :
  exists p rest,
    split sep s = p :: rest /\ ~ In sep p
    /\ (s = p \/ exists r, s = p ++ sep :: r).
Proof.
  induction s as [|c s (p & rest & E & Hp & Hs)].
  - exists [], []. split_and!; [reflexivity|intros []|now left].
  - rewrite split_cons. destruct (N.eqb_spec c sep) as [->|Hc].
    + exists [], (split sep s). split_and!; [reflexivity|intros []|].
      right. now exists s.
    + rewrite E. exists (c :: p), rest. split_and!; [reflexivity| |].
      * intros [H|H]; [congruence|tauto].
      * destruct Hs as [->|(r & ->)]; [now left|]. right. now exists r.
Qed.

Lemma cache_key_second_piece (chat : Z) (name : str) :
  exists p, split hyphen (make_cache_key chat name) !! 1%nat = Some p.
Proof.
  unfold make_cache_key. change (lit "-" ++ name) with (hyphen :: name).
  destruct (of_int_shape chat) as (d & ds & Hd & ->).
  destruct (chat <? 0)%Z.
  - change ([hyphen] ++ d :: ds) with (hyphen :: d :: ds).
    change ((hyphen :: d :: ds) ++ hyphen :: name)
      with (hyphen :: ((d :: ds) ++ hyphen :: name)).
    rewrite split_cons, N.eqb_refl.
    rewrite (split_app hyphen (d :: ds) name Hd).
    now exists (d :: ds).
  - change ([] ++ d :: ds) with (d :: ds).
    rewrite (split_app hyphen (d :: ds) name Hd).
    destruct (split hyphen name) as [|p rest] eqn:E;
      [now apply split_nonempty in E|].
    now exists p.
Qed.

(** in a private chat the second piece of the key is the first piece of
    the name *)
Lemma private_key_second_piece (chat : Z) (name : str) :
  (0 <= chat)%Z ->
  split hyphen (make_cache_key chat name) !! 1%nat
  = head (split hyphen name).
Proof.
  intros Hc. unfold make_cache_key.
  change (lit "-" ++ name) with (hyphen :: name).
  rewrite split_app by now apply of_int_no_hyphen.
  now destruct (split hyphen name).
Qed.

(** ** What a handler does to the cache *)

Lemma take_other (k k' : str) (c : cache) :
  k <> k' -> snd (take k c) !! k' = c !! k'.
Proof.
  intros Hk. unfold take. destruct (c !! k) as [v|]; [|reflexivity].
  destruct (falsy v); [reflexivity|]. simpl. now apply lookup_delete_ne.
Qed.

Lemma take_sub (k k' : str) (c : cache) (v : list guess) :
  snd (take k c) !! k' = Some v -> c !! k' = Some v.
Proof.
  unfold take. destruct (c !! k) as [w|]; [|auto].
  destruct (falsy w); [auto|]. simpl. rewrite lookup_delete_Some. tauto.
Qed.

Lemma send_graph_take (E : env) (cl : call) (c : cache) :
  fst (send_graph E cl c) = snd (take (skipn 6 (data cl)) c).
Proof.
  unfold send_graph.
  destruct (take (skipn 6 (data cl)) c) as [[v|] c']; [|reflexivity].
  destruct (create_bar_chart E v); [|reflexivity].
  now destruct (split hyphen (skipn 6 (data cl)) !! 1%nat).
Qed.

Lemma handle_name_cases (E : env) (m : message) (c : cache) :
  fst (handle_name E m c) = c
  \/ exists countries,
       (2 <= len (strip (text m)))%Z
       /\ requests_get E (strip (text m)) = Body (Some countries)
       /\ falsy countries = false
       /\ fst (handle_name E m c)
          = put (make_cache_key (chat_id m) (strip (text m)))
                (top5 countries) c.
Proof.
  unfold handle_name.
  destruct (Z.ltb_spec (len (strip (text m))) 2); [now left|].
  destruct (requests_get E (strip (text m))) as [e|e|[countries|]];
    try (now left).
  simpl default. destruct (falsy countries) eqn:Hf; [now left|].
  right. exists countries. auto.
Qed.

(** ** X1: from the query to the chart *)

Lemma button_passes_filter (k : str) :
  startswith (lit "graph_") (callback_data (graph_button k)) = true
  /\ skipn 6 (callback_data (graph_button k)) = k.
Proof. split; reflexivity. Qed.

(** X1. A successful query followed by a press of the button it sent: the
    callback passes the [graph_] filter, the key read back from the payload
    is the key the result was stored under, and when the encoder returns
    the image the photo goes out, in any chat and for any name; the entry is
    gone afterwards. *)
Theorem X1_press_delivers_chart (E E' : env) (m : message) (cl : call)
    (c : cache) (countries : list guess) (png : list Byte.byte) :
  (2 <= len (strip (text m)))%Z ->
  requests_get E (strip (text m)) = Body (Some countries) ->
  falsy countries = false ->
  data cl
  = callback_data (graph_button (make_cache_key (chat_id m) (strip (text m)))) ->
  savefig E' (draw E' (top5 countries)) = Returned png ->
  exists subject,
    dispatch E' (Callback cl) (fst (dispatch E (Text m) c))
    = (delete (make_cache_key (chat_id m) (strip (text m))) c,
       [send_photo (call_chat_id cl) {| getvalue := png; tell := 0 |}
          (chart_caption subject)]).
Proof.
  intros Hlen Hget Hne Hdata Hpng.
  destruct (cache_key_second_piece (chat_id m) (strip (text m))) as [p Hp].
  exists p. unfold dispatch.
  rewrite (handle_name_success E m c countries Hlen Hget Hne).
  rewrite Hdata, (proj1 (button_passes_filter _)).
  unfold send_graph. rewrite Hdata, (proj2 (button_passes_filter _)).
  cbn [fst]. rewrite (take_present _ (top5 countries)).
  - unfold create_bar_chart. rewrite Hpng, Hp. unfold put.
    now rewrite delete_insert_eq.
  - apply lookup_insert_eq.
  - now apply top5_nonempty.
Qed.

Lemma X1_press_delivers_chart_witness :
  let E := sample_env (Some six_guesses) in
  exists subject,
    dispatch E (Callback (press group_message))
      (fst (dispatch E (Text group_message) ∅))
    = (delete (make_cache_key (chat_id group_message)
                 (strip (text group_message))) ∅,
       [send_photo (call_chat_id (press group_message))
          {| getvalue := sample_png; tell := 0 |} (chart_caption subject)]).
Proof.
  intros E.
  apply (X1_press_delivers_chart E E group_message (press group_message) ∅
           six_guesses sample_png).
  - vm_compute. discriminate.
  - reflexivity.
  - reflexivity.
  - reflexivity.
  - reflexivity.
Defined.

(** ** X2, X3: keys keep requests apart *)

(** X2. Two requests that differ in the chat or in the stripped name get
    different cache keys: the numeral of the chat id ends at the first
    hyphen that follows its digits. *)
Theorem X2_distinct_requests_distinct_keys (chat chat' : Z) (name name' : str) :
  (chat, name) <> (chat', name') ->
  make_cache_key chat name <> make_cache_key chat' name'.
Proof.
  intros Hne H. apply make_cache_key_inj in H. destruct H as [-> ->].
  now apply Hne.
Qed.

Lemma X2_distinct_requests_distinct_keys_witness :
  make_cache_key 1 (lit "2-Kim") <> make_cache_key 12 (lit "Kim")
  /\ make_cache_key (-1) (lit "Kim") <> make_cache_key 1 (lit "Kim").
Proof.
  split; apply X2_distinct_requests_distinct_keys; intros H;
    injection H; discriminate.
Defined.

(** X3. A text query leaves every entry but its own as it was: all other
    keys, and so the entries of every other chat and of every other name in
    the same chat. *)
Theorem X3_query_touches_own_entry_only (E : env) (m : message) (c : cache) :
  (forall k,
     k <> make_cache_key (chat_id m) (strip (text m)) ->
     fst (handle_name E m c) !! k = c !! k)
  /\ (forall chat name,
        (chat, name) <> (chat_id m, strip (text m)) ->
        fst (handle_name E m c) !! make_cache_key chat name
        = c !! make_cache_key chat name).
Proof.
  assert (Hframe : forall k,
            k <> make_cache_key (chat_id m) (strip (text m)) ->
            fst (handle_name E m c) !! k = c !! k).
  { intros k Hk.
    destruct (handle_name_cases E m c) as [-> | (l & _ & _ & _ & ->)];
      [reflexivity|].
    unfold put. now rewrite lookup_insert_ne. }
  split; [exact Hframe|].
  intros chat name Hne. apply Hframe. intros H.
  apply make_cache_key_inj in H. destruct H as [-> ->]. now apply Hne.
Qed.

(** ** X4: what a press does to the cache *)

(** X4. The cache a press leaves does not depend on the registry, the
    service or the encoder, so not on whether drawing succeeded; the press
    changes no entry but the one of its key, and it adds none. *)
Theorem X4_press_only_consumes (E E' : env) (cl : call) (c : cache) :
  fst (send_graph E cl c) = fst (send_graph E' cl c)
  /\ (forall k, k <> skipn 6 (data cl) ->
                fst (send_graph E cl c) !! k = c !! k)
  /\ (forall k v, fst (send_graph E cl c) !! k = Some v -> c !! k = Some v).
Proof.
  rewrite !send_graph_take. split_and!.
  - reflexivity.
  - intros k Hk. apply take_other. congruence.
  - intros k v. apply take_sub.
Qed.

(** ** X6: what goes to the service *)

(** X6. A request to the service is only ever made for a text message, and
    the name it carries is the stripped text: at least two characters long,
    with no whitespace at either end. *)
Theorem X6_requests_carry_stripped_name (E : env) (ev : event) (c : cache)
    (n : str) :
  In (http_get n) (snd (dispatch E ev c)) ->
  exists m,
    ev = Text m /\ n = strip (text m) /\ (2 <= len n)%Z /\ trimmed n.
Proof.
  destruct ev as [m|m|cl]; unfold dispatch.
  - intros [H|[]]. discriminate H.
  - intros Hin. exists m. split; [reflexivity|].
    unfold handle_name in Hin.
    destruct (Z.ltb_spec (len (strip (text m))) 2) as [Hshort|Hlen].
    { destruct Hin as [H|[]]. discriminate H. }
    assert (n = strip (text m)) as ->.
    { destruct (requests_get E (strip (text m))) as [e|e|country];
        [| |destruct (falsy (default [] country))];
        destruct Hin as [H|[H|[]]]; congruence. }
    split_and!; [reflexivity|exact Hlen|apply strip_trimmed].
  - destruct (startswith (lit "graph_") (data cl)); [|intros []].
    unfold send_graph.
    destruct (take (skipn 6 (data cl)) c) as [[v|] c'].
    + destruct (create_bar_chart E v);
        [destruct (split hyphen (skipn 6 (data cl)) !! 1%nat)|];
        intros [H|[]]; discriminate H.
    + intros [H|[]]. discriminate H.
Qed.

Lemma X6_requests_carry_stripped_name_witness :
  exists m,
    Text sample_message = Text m /\ lit "Trump" = strip (text m)
    /\ (2 <= len (lit "Trump"))%Z /\ trimmed (lit "Trump").
Proof.
  apply (X6_requests_carry_stripped_name (sample_env (Some six_guesses))
           (Text sample_message) ∅ (lit "Trump")).
  left. reflexivity.
Defined.

(** ** X7: asking again *)

(** X7. Asking again for the same name in the same chat, whatever the
    whitespace around it, overwrites the entry: the cache is the one the
    second query alone would have left, and it holds the second ranking. *)
Theorem X7_last_query_wins (E1 E2 : env) (m1 m2 : message) (c : cache)
    (l1 l2 : list guess) :
  chat_id m1 = chat_id m2 ->
  strip (text m1) = strip (text m2) ->
  (2 <= len (strip (text m1)))%Z ->
  requests_get E1 (strip (text m1)) = Body (Some l1) ->
  falsy l1 = false ->
  requests_get E2 (strip (text m2)) = Body (Some l2) ->
  falsy l2 = false ->
  fst (handle_name E2 m2 (fst (handle_name E1 m1 c)))
  = fst (handle_name E2 m2 c)
  /\ fst (handle_name E2 m2 (fst (handle_name E1 m1 c)))
     !! make_cache_key (chat_id m1) (strip (text m1))
     = Some (top5 l2).
Proof.
  intros Hchat Hname Hlen H1 Hl1 H2 Hl2.
  assert (Hlen2 : (2 <= len (strip (text m2)))%Z) by now rewrite <- Hname.
  rewrite (handle_name_success E1 m1 c l1 Hlen H1 Hl1).
  rewrite !(handle_name_success E2 m2 _ l2 Hlen2 H2 Hl2).
  cbn [fst]. rewrite Hchat, Hname. unfold put. split.
  - apply insert_insert_eq.
  - apply lookup_insert_eq.
Qed.

Lemma X7_last_query_wins_witness :
  let E1 := sample_env (Some five_guesses) in
  let E2 := sample_env (Some six_guesses) in
  let m1 := sample_message in
  let m2 := {| chat_id := 42%Z; text := lit "Trump" |} in
  fst (handle_name E2 m2 (fst (handle_name E1 m1 ∅)))
  = fst (handle_name E2 m2 ∅)
  /\ fst (handle_name E2 m2 (fst (handle_name E1 m1 ∅)))
     !! make_cache_key (chat_id m1) (strip (text m1))
     = Some (top5 six_guesses).
Proof.
  intros E1 E2 m1 m2.
  apply (X7_last_query_wins E1 E2 m1 m2 ∅ five_guesses six_guesses).
  - reflexivity.
  - reflexivity.
  - vm_compute. discriminate.
  - reflexivity.
  - reflexivity.
  - reflexivity.
  - reflexivity.
Defined.

(** ** X8: the five kept are the most probable *)

(** X8. The guesses split into the five that are kept and the rest, and no
    guess of the rest is more probable than a kept one. *)
Theorem X8_kept_are_most_probable (countries : list guess) :
  well_formed countries = true ->
  exists rest,
    Permutation countries (top5 countries ++ rest)
    /\ (forall a b, In a (top5 countries) -> In b rest -> at_least a b).
Proof.
  intros Hwf. exists (skipn 5 (sorted by_probability true countries)).
  unfold top5. split.
  - rewrite firstn_skipn. symmetry. apply ranking_perm.
  - pose proof (ranking_non_increasing countries Hwf) as Hs.
    unfold non_increasing in Hs.
    rewrite <- (firstn_skipn 5 (sorted by_probability true countries)) in Hs.
    apply StronglySorted_app in Hs. destruct Hs as (Hs & _ & _).
    intros a b Ha Hb. apply Hs; now apply list_elem_of_In.
Qed.

Lemma X8_kept_are_most_probable_witness :
  exists rest,
    Permutation six_guesses (top5 six_guesses ++ rest)
    /\ (forall a b, In a (top5 six_guesses) -> In b rest -> at_least a b).
Proof.
  apply (X8_kept_are_most_probable six_guesses). vm_compute. reflexivity.
Defined.

(** ** X9, X12: the entries the process can hold *)

Lemma dispatch_keys (E : env) (ev : event) (c : cache) :
  (forall k v, c !! k = Some v -> handler_key k) ->
  forall k v, fst (dispatch E ev c) !! k = Some v -> handler_key k.
Proof.
  intros Hc k v. destruct ev as [m|m|cl]; unfold dispatch.
  - apply Hc.
  - destruct (handle_name_cases E m c) as [-> | (l & Hlen & _ & _ & ->)];
      [apply Hc|].
    unfold put. rewrite lookup_insert. case_decide; [|apply Hc].
    intros _. subst k. exists (chat_id m), (strip (text m)).
    split_and!; [reflexivity|exact Hlen|apply strip_trimmed].
  - destruct (startswith (lit "graph_") (data cl)); [|apply Hc].
    rewrite send_graph_take. intros H. apply take_sub in H.
    exact (Hc _ _ H).
Qed.

Lemma reachable_keys (c : cache) :
  reachable c -> forall k v, c !! k = Some v -> handler_key k.
Proof.
  induction 1 as [|E ev c Hc IH HE].
  - intros k v H. rewrite lookup_empty in H. discriminate H.
  - now apply dispatch_keys.
Qed.

(** X9. Every key the process can hold was built by the text handler from a
    chat id and a stripped name of at least two characters. So a press on a
    present entry never runs into the [IndexError] of [split('-')[1]]: when
    the encoder returns the image, the photo goes out and the entry is
    removed. *)
Theorem X9_stored_keys_split (c : cache) :
  reachable c ->
  (forall k v, c !! k = Some v -> handler_key k)
  /\ (forall (E : env) (cl : call) (v : list guess) (png : list Byte.byte),
        c !! skipn 6 (data cl) = Some v ->
        savefig E (draw E v) = Returned png ->
        exists subject,
          send_graph E cl c
          = (delete (skipn 6 (data cl)) c,
             [send_photo (call_chat_id cl) {| getvalue := png; tell := 0 |}
                (chart_caption subject)])).
Proof.
  intros Hr. split; [exact (reachable_keys c Hr)|].
  intros E cl v png Hk Hpng.
  destruct (reachable_invariant c Hr _ _ Hk) as (Hv & _).
  destruct (reachable_keys c Hr _ _ Hk) as (chat & name & Hkey & _).
  destruct (cache_key_second_piece chat name) as [p Hp].
  exists p. unfold send_graph.
  rewrite (take_present _ _ _ Hk Hv). unfold create_bar_chart.
  now rewrite Hpng, Hkey, Hp.
Qed.

Lemma X9_stored_keys_split_witness :
  let c := fst (dispatch (sample_env (Some six_guesses)) (Text group_message) ∅) in
  (forall k v, c !! k = Some v -> handler_key k)
  /\ (forall (E : env) (cl : call) (v : list guess) (png : list Byte.byte),
        c !! skipn 6 (data cl) = Some v ->
        savefig E (draw E v) = Returned png ->
        exists subject,
          send_graph E cl c
          = (delete (skipn 6 (data cl)) c,
             [send_photo (call_chat_id cl) {| getvalue := png; tell := 0 |}
                (chart_caption subject)])).
Proof.
  intros c. apply (X9_stored_keys_split c).
  apply reachable_step; [apply reachable_start|].
  intros name l H. injection H as <-. reflexivity.
Defined.

(** X12. The chart drawn for an entry the process can hold has between one
    and five bars, and as many labels as bars. *)
Theorem X12_stored_chart_size (c : cache) (E : env) (k : str)
    (v : list guess) :
  reachable c ->
  c !! k = Some v ->
  (1 <= List.length (bars (draw E v)) <= 5)%nat
  /\ List.length (texts (draw E v)) = List.length (bars (draw E v)).
Proof.
  intros Hr Hk. destruct (reachable_invariant c Hr k v Hk) as (Hv & Hlen & _).
  rewrite draw_texts, draw_bars, !length_map. split; [|reflexivity].
  destruct v; [discriminate Hv|]. simpl in *. lia.
Qed.

Lemma X12_stored_chart_size_witness :
  let E := sample_env (Some six_guesses) in
  let v := top5 six_guesses in
  (1 <= List.length (bars (draw E v)) <= 5)%nat
  /\ List.length (texts (draw E v)) = List.length (bars (draw E v)).
Proof.
  intros E v.
  apply (X12_stored_chart_size (fst (dispatch E (Text sample_message) ∅)) E
           (lit "42-Trump") v).
  - apply reachable_step; [apply reachable_start|].
    intros name l H. injection H as <-. reflexivity.
  - vm_compute. reflexivity.
Defined.

(** ** X10: the caption in a private chat *)

(** X10. In a private chat (the chat id is not negative) the photo's caption
    names the submitted name up to its first hyphen: the whole name when it
    has none. *)
Theorem X10_private_caption (E E' : env) (m : message) (cl : call) (c : cache)
    (countries : list guess) (png : list Byte.byte) :
  (0 <= chat_id m)%Z ->
  (2 <= len (strip (text m)))%Z ->
  requests_get E (strip (text m)) = Body (Some countries) ->
  falsy countries = false ->
  data cl
  = callback_data (graph_button (make_cache_key (chat_id m) (strip (text m)))) ->
  savefig E' (draw E' (top5 countries)) = Returned png ->
  exists subject,
    snd (send_graph E' cl (fst (handle_name E m c)))
    = [send_photo (call_chat_id cl) {| getvalue := png; tell := 0 |}
         (chart_caption subject)]
    /\ ~ In hyphen subject
    /\ (strip (text m) = subject
        \/ exists r, strip (text m) = subject ++ hyphen :: r).
Proof.
  intros Hchat Hlen Hget Hne Hdata Hpng.
  destruct (split_first_piece hyphen (strip (text m)))
    as (p & rest & Hsplit & Hp & Hname).
  exists p. split; [|auto].
  rewrite (handle_name_success E m c countries Hlen Hget Hne).
  unfold send_graph. rewrite Hdata, (proj2 (button_passes_filter _)).
  cbn [fst]. rewrite (take_present _ (top5 countries)).
  - unfold create_bar_chart. rewrite Hpng.
    rewrite (private_key_second_piece _ _ Hchat), Hsplit. reflexivity.
  - apply lookup_insert_eq.
  - now apply top5_nonempty.
Qed.

Lemma X10_private_caption_witness :
  let E := sample_env (Some six_guesses) in
  let m := {| chat_id := 42%Z; text := lit " Jean-Pierre " |} in
  exists subject,
    snd (send_graph E (press m) (fst (handle_name E m ∅)))
    = [send_photo (call_chat_id (press m))
         {| getvalue := sample_png; tell := 0 |} (chart_caption subject)]
    /\ ~ In hyphen subject
    /\ (strip (text m) = subject
        \/ exists r, strip (text m) = subject ++ hyphen :: r).
Proof.
  intros E m.
  apply (X10_private_caption E E m (press m) ∅ six_guesses sample_png).
  - vm_compute. discriminate.
  - vm_compute. discriminate.
  - reflexivity.
  - reflexivity.
  - reflexivity.
  - reflexivity.
Defined.

(** ** X11: the service fails *)

(** X11. When the request raises, be it a [RequestException] or anything
    else, the user gets one reply whose text embeds the cause, no button is
    offered and the cache is left as it was. *)
Theorem X11_request_failure_reported (E : env) (m : message) (c : cache)
    (e : str) :
  (2 <= len (strip (text m)))%Z ->
  requests_get E (strip (text m)) = RequestException e
  \/ requests_get E (strip (text m)) = OtherException e ->
  exists txt,
    handle_name E m c = (c, [http_get (strip (text m)); reply_to m txt])
    /\ contains txt e.
Proof.
  intros Hlen Hget. unfold handle_name.
  apply Z.ltb_ge in Hlen. rewrite Hlen.
  destruct Hget as [-> | ->].
  - exists (api_error e). split; [reflexivity|].
    eexists _, []. rewrite app_nil_r. reflexivity.
  - exists (unexpected_error e). split; [reflexivity|].
    eexists _, []. rewrite app_nil_r. reflexivity.
Qed.

Lemma X11_request_failure_reported_witness :
  let E := offline (lit "timed out") in
  exists txt,
    handle_name E sample_message ∅
    = (∅, [http_get (strip (text sample_message)); reply_to sample_message txt])
    /\ contains txt (lit "timed out").
Proof.
  intros E.
  apply (X11_request_failure_reported E sample_message ∅ (lit "timed out")).
  - vm_compute. discriminate.
  - left. reflexivity.
Defined.

(** ** X13, X14: the percentage text *)

Lemma uint_chars_digits (u : Decimal.uint) : Forall digit (uint_chars u).
Proof.
  induction u; simpl; constructor; try assumption; unfold digit; lia.
Qed.

Lemma of_int_nonneg_digits (z : Z) :
  (0 <= z)%Z -> Str.of_int z <> [] /\ Forall digit (Str.of_int z).
Proof.
  intros Hz. destruct z as [|p|p]; [| |lia].
  - split; [discriminate|]. repeat constructor; unfold digit; lia.
  - split; [apply uint_chars_nonempty|apply uint_chars_digits].
Qed.

Lemma of_int_one_digit (z : Z) :
  (0 <= z < 10)%Z -> exists d, Str.of_int z = [d] /\ digit d.
Proof.
  intros Hz.
  assert (z = 0 \/ z = 1 \/ z = 2 \/ z = 3 \/ z = 4 \/ z = 5 \/ z = 6
          \/ z = 7 \/ z = 8 \/ z = 9)%Z as H by lia.
  unfold digit.
  repeat (destruct H as [-> | H]); try subst z;
    (eexists; split; [reflexivity|lia]).
Qed.

Lemma tenths_nonneg (m : positive) (e : Z) : (0 <= Float.tenths m e)%Z.
Proof.
  unfold Float.tenths. destruct e as [|k|k].
  - lia.
  - pose proof (Z.pow_pos_nonneg 2 (Z.pos k)). lia.
  - pose proof (Z.pow_pos_nonneg 2 (Z.pos k)) as Hd.
    assert (0 <= Z.pos m * 10 / 2 ^ Z.pos k)%Z
      by (apply Z.div_pos; lia).
    cbv zeta.
    destruct (2 * ((Z.pos m * 10) mod 2 ^ Z.pos k) ?= 2 ^ Z.pos k)%Z;
      [destruct (Z.even (Z.pos m * 10 / 2 ^ Z.pos k))| |]; lia.
Qed.

(** X13. The text of a finite percentage is an optional minus sign, at
    least one digit, a point and exactly one more digit. *)
Theorem X13_one_decimal_digit (x : Float.float) :
  is_finite x = true ->
  exists s ip d,
    Float.format_1f x = Float.sign s ++ ip ++ [46; d]
    /\ ip <> [] /\ Forall digit ip /\ digit d.
Proof.
  destruct x as [s| | |s m e]; try discriminate; intros _.
  - exists s, [48], 48. split_and!; [reflexivity|discriminate| |];
      repeat constructor; unfold digit; lia.
  - pose proof (tenths_nonneg m e) as Ht.
    destruct (of_int_nonneg_digits (Float.tenths m e / 10)) as [Hne Hd];
      [apply Z.div_pos; lia|].
    destruct (of_int_one_digit (Float.tenths m e mod 10)) as (d & Hd1 & Hd2);
      [apply Z.mod_pos_bound; lia|].
    exists s, (Str.of_int (Float.tenths m e / 10)), d.
    split_and!; try assumption.
    unfold Float.format_1f. cbv zeta. rewrite Hd1. reflexivity.
Qed.

Lemma X13_one_decimal_digit_witness :
  exists s ip d,
    Float.format_1f (percent (mk_guess "CA" 404 1000))
    = Float.sign s ++ ip ++ [46; d]
    /\ ip <> [] /\ Forall digit ip /\ digit d.
Proof.
  apply (X13_one_decimal_digit (percent (mk_guess "CA" 404 1000))).
  vm_compute. reflexivity.
Defined.

(** [tenths] rounds to the nearest tenth, ties to even *)
Lemma tenths_nearest (m : positive) (e : Z) :
  let t := Float.tenths m e in
  match e with
  | Zneg k =>
    let d := (2 ^ Z.pos k)%Z in
    (2 * Z.abs (t * d - 10 * Z.pos m) <= d)%Z
    /\ ((2 * Z.abs (t * d - 10 * Z.pos m) = d)%Z -> Z.even t = true)
  | _ => (t = 10 * Z.pos m * 2 ^ e)%Z
  end.
Proof.
  unfold Float.tenths. destruct e as [|k|k]; cbv zeta; [lia|lia|].
  pose proof (Z.pow_pos_nonneg 2 (Z.pos k)) as Hd.
  set (d := (2 ^ Z.pos k)%Z) in *.
  assert (0 < d)%Z as Hd' by lia. clear Hd.
  pose proof (Z.div_mod (Z.pos m * 10) d) as Hdm.
  pose proof (Z.mod_pos_bound (Z.pos m * 10) d Hd') as Hr.
  set (q := (Z.pos m * 10 / d)%Z) in *.
  set (r := ((Z.pos m * 10) mod d)%Z) in *.
  assert (Z.pos m * 10 = d * q + r)%Z as Hn by lia. clear Hdm.
  destruct (Z.compare_spec (2 * r) d) as [Heq|Hlt|Hgt].
  - destruct (Z.even q) eqn:Hq.
    + split; [nia|]. intros _. exact Hq.
    + split; [nia|]. intros _.
      rewrite Z.add_1_r, Z.even_succ, <- Z.negb_even, Hq. reflexivity.
  - split; [nia|]. nia.
  - split; [nia|]. nia.
Qed.

Lemma digits_value_acc (u : Decimal.uint) (acc : positive) :
  fold_left (fun a c => (10 * a + (Z.of_N c - 48))%Z) (uint_chars u) (Z.pos acc)
  = Z.pos (Pos.of_uint_acc u acc).
Proof.
  revert acc. induction u; intros acc; simpl; [reflexivity|..];
    rewrite <- IHu; f_equal; lia.
Qed.

Lemma digits_value_uint (u : Decimal.uint) :
  digits_value (uint_chars u) = Z.of_N (Pos.of_uint u).
Proof.
  unfold digits_value. induction u; simpl; [reflexivity|exact IHu|..];
    rewrite <- digits_value_acc; f_equal.
Qed.

(** reading back the numeral of a natural number gives the number *)
Lemma digits_value_of_int (z : Z) :
  (0 <= z)%Z -> digits_value (Str.of_int z) = z.
Proof.
  intros Hz. destruct z as [|p|p]; [reflexivity| |lia].
  change (Str.of_int (Z.pos p)) with (uint_chars (Pos.to_uint p)).
  now rewrite digits_value_uint, DecimalPos.Unsigned.of_to.
Qed.

Lemma digits_value_snoc (s : str) (d : char) :
  digits_value (s ++ [d]) = (10 * digits_value s + (Z.of_N d - 48))%Z.
Proof. unfold digits_value. now rewrite fold_left_app. Qed.

(** X14. The text [f'{x:.1f}'] of a finite non-zero float is a sign, digits,
    a point and one digit, and the digits, read as a number of tenths, are
    the tenths nearest to the float's exact value: for [m / 2^k] the error
    is at most half a tenth and a tie goes to the even neighbour; a float
    [m * 2^e] with [e >= 0] is printed exactly. *)
Theorem X14_nearest_tenth (s : bool) (m : positive) (e : Z) :
  exists ip d,
    Float.format_1f (S754_finite s m e) = Float.sign s ++ ip ++ [46; d]
    /\ let t := digits_value (ip ++ [d]) in
       match e with
       | Zneg k =>
         let q := (2 ^ Z.pos k)%Z in
         (2 * Z.abs (t * q - 10 * Z.pos m) <= q)%Z
         /\ ((2 * Z.abs (t * q - 10 * Z.pos m) = q)%Z -> Z.even t = true)
       | _ => (t = 10 * Z.pos m * 2 ^ e)%Z
       end.
Proof.
  pose proof (tenths_nonneg m e) as Ht.
  destruct (of_int_one_digit (Float.tenths m e mod 10)) as (d & Hd1 & _);
    [apply Z.mod_pos_bound; lia|].
  exists (Str.of_int (Float.tenths m e / 10)), d. split.
  - unfold Float.format_1f. cbv zeta. rewrite Hd1. reflexivity.
  - assert (Hval : digits_value (Str.of_int (Float.tenths m e / 10) ++ [d])
                   = Float.tenths m e).
    { rewrite digits_value_snoc, digits_value_of_int
        by (apply Z.div_pos; lia).
      assert (Hd : (Z.of_N d - 48 = Float.tenths m e mod 10)%Z).
      { rewrite <- (digits_value_of_int (Float.tenths m e mod 10))
          by (apply Z.mod_pos_bound; lia).
        rewrite Hd1. unfold digits_value. simpl. lia. }
      rewrite Hd. symmetry. apply Z.div_mod. lia. }
    cbv zeta. rewrite Hval. exact (tenths_nearest m e).
Qed.

(** ** X15: who writes the cache *)

(** X15. An update changes the entry of a key only in two ways: a text
    query stores a result under the key of its chat and stripped name, and a
    press removes the entry of the key in its payload. Commands and
    callbacks without the [graph_] prefix change nothing. *)
Theorem X15_entries_added_by_queries_removed_by_presses (E : env) (ev : event)
    (c : cache) (k : str) :
  fst (dispatch E ev c) !! k <> c !! k ->
  (exists m, ev = Text m
             /\ k = make_cache_key (chat_id m) (strip (text m))
             /\ is_Some (fst (dispatch E ev c) !! k))
  \/ (exists cl, ev = Callback cl
                 /\ startswith (lit "graph_") (data cl) = true
                 /\ k = skipn 6 (data cl)
                 /\ fst (dispatch E ev c) !! k = None).
Proof.
  destruct ev as [m|m|cl]; unfold dispatch.
  - intros H. now destruct H.
  - intros H. left. exists m. split; [reflexivity|].
    destruct (handle_name_cases E m c) as [Hc | (l & _ & _ & _ & Hc)];
      rewrite Hc in *; [now destruct H|].
    unfold put in *.
    destruct (decide (make_cache_key (chat_id m) (strip (text m)) = k))
      as [<-|Hk].
    + split; [reflexivity|]. rewrite lookup_insert_eq. eauto.
    + rewrite lookup_insert_ne in H by exact Hk. now destruct H.
  - destruct (startswith (lit "graph_") (data cl)) eqn:Hs;
      [|intros H; now destruct H].
    rewrite send_graph_take. intros H. right. exists cl.
    split; [reflexivity|]. split; [exact Hs|].
    destruct (decide (skipn 6 (data cl) = k)) as [<-|Hk].
    + split; [reflexivity|]. revert H. unfold take.
      destruct (c !! skipn 6 (data cl)) as [v|] eqn:Hc;
        [|intros H; now destruct H].
      destruct (falsy v); [intros H; now destruct H|].
      intros _. apply lookup_delete_eq.
    + rewrite take_other in H by exact Hk. now destruct H.
Qed.

Lemma X15_entries_added_by_queries_removed_by_presses_witness :
  let E := sample_env (Some six_guesses) in
  let ev := Text sample_message in
  let k := lit "42-Trump" in
  (exists m, ev = Text m
             /\ k = make_cache_key (chat_id m) (strip (text m))
             /\ is_Some (fst (dispatch E ev ∅) !! k))
  \/ (exists cl, ev = Callback cl
                 /\ startswith (lit "graph_") (data cl) = true
                 /\ k = skipn 6 (data cl)
                 /\ fst (dispatch E ev ∅) !! k = None).
Proof.
  intros E ev k.
  apply (X15_entries_added_by_queries_removed_by_presses E ev ∅ k).
  vm_compute. discriminate.
Defined.

(** ** The model on concrete inputs *)

Example lit_graph : lit "graph_" = [103; 114; 97; 112; 104; 95].
Proof. reflexivity. Qed.

Example lit_cyrillic : lit "Имя" = [1048; 1084; 1103].
Proof. reflexivity. Qed.

(** [len] counts characters, not bytes *)
Example len_cyrillic : len (strip (lit "  Я   ")) = 1%Z.
Proof. reflexivity. Qed.

Example strip_inner_space : strip (lit " Kim  Jong ") = lit "Kim  Jong".
Proof. reflexivity. Qed.

Example split_group_key :
  split hyphen (lit "-100-Trump") = [[]; lit "100"; lit "Trump"].
Proof. reflexivity. Qed.

Example split_double_name :
  split hyphen (lit "42-Jean-Pierre") !! 1%nat = Some (lit "Jean").
Proof. reflexivity. Qed.

(** [0.9] is the double [0x3FECCCCCCCCCCCCD] *)
Example float_nine_tenths :
  Float.of_ratio 9 10 = S754_finite false 8106479329266893 (-53).
Proof. vm_compute. reflexivity. Qed.

Example format_percent :
  Float.format_1f (Float.mul (Float.of_ratio 821 10000) (Float.of_int 100))
  = lit "8.2".
Proof. vm_compute. reflexivity. Qed.

(** 25 is a tie and rounds to even; the double nearest to 0.35 lies below it *)
Example format_ties :
  Float.format_1f (Float.of_ratio 25 100) = lit "0.2"
  /\ Float.format_1f (Float.of_ratio 35 100) = lit "0.3".
Proof. split; vm_compute; reflexivity. Qed.

Example top5_of_six :
  List.map country_id (top5 six_guesses)
  = [lit "CA"; lit "US"; lit "GB"; lit "AU"; lit "NZ"].
Proof. vm_compute. reflexivity. Qed.

Example summary_of_six :
  snd (handle_name (sample_env (Some six_guesses)) sample_message ∅)
  = [http_get (lit "Trump");
     send_message 42
       (lit "🎯 Топ-5 этничностей/национальностей для Trump:" ++ nl
        ++ lit "1. Canada - 40.4%" ++ nl
        ++ lit "2. United States - 35.2%" ++ nl
        ++ lit "3. United Kingdom - 9.1%" ++ nl
        ++ lit "4. Australia - 6.0%" ++ nl
        ++ lit "5. New Zealand - 3.3%")
       [{| btn_text := lit "📊 Показать диаграммой";
           callback_data := lit "graph_42-Trump" |}]].
Proof. vm_compute. reflexivity. Qed.

Example unknown_code :
  get_country_name (sample_env None) (lit "ZZ") = lit "Неизвестная страна (ZZ)".
Proof. vm_compute. reflexivity. Qed.

(** an empty result draws an empty chart *)
Example empty_chart :
  bars (draw (sample_env None) []) = []
  /\ create_bar_chart (sample_env None) []
     = Returned {| getvalue := sample_png; tell := 0 |}.
Proof. split; reflexivity. Qed.

(** two presses in a row: the chart, then the stale notice *)
Example press_twice :
  let E := sample_env (Some six_guesses) in
  let c0 := fst (handle_name E sample_message ∅) in
  let c1 := fst (send_graph E (press sample_message) c0) in
  snd (send_graph E (press sample_message) c0)
  = [send_photo 42 {| getvalue := sample_png; tell := 0 |}
       (chart_caption (lit "Trump"))]
  /\ snd (send_graph E (press sample_message) c1)
     = [answer_callback_query (lit "7") stale true].
Proof. split; vm_compute; reflexivity. Qed.
